(** * Change-batching and deduplication core of the BadPractice agent

    Shallow embedding of [src/cli/bp.py] (the watcher client) and
    [src/backend/app.py] (the analysis backend).

    Modelling conventions:
    - a Python [str] is a Rocq [string] holding its UTF-8 bytes; byte-wise
      lexicographic order on UTF-8 coincides with Python's code-point order;
      [str.lower] is modelled on its ASCII part; [strip] and [\s] use
      the whole whitespace set of [str.isspace()];
    - [hashlib.sha256(...).hexdigest()] is a parameter [digest]; statements
      that need it to separate inputs assume it injective ("up to hash
      collision");
    - [time.time()] readings are integers of type [Z];
    - the file system, the LLM endpoint and the SMTP server are oracles
      passed as arguments. *)

From Stdlib Require Import ZArith Lia Sorting.Sorted.
From Stdlib Require Import Ascii.
From stdpp Require Import base gmap strings list.

Open Scope Z_scope.

(* ------------------------------------------------------------------ *)
(** ** Python string helpers *)

Definition chr (n : nat) : string := String (ascii_of_nat n) EmptyString.

(** ["\n"] *)
Definition NL : string := chr 10.

Definition ascii_code (c : ascii) : nat := nat_of_ascii c.

(** [str.lower] on ASCII letters. *)
Definition lower_char (c : ascii) : ascii :=
  let n := ascii_code c in
  if (65 <=? n)%nat && (n <=? 90)%nat then ascii_of_nat (n + 32) else c.

Fixpoint lower (s : string) : string :=
  match s with
  | EmptyString => EmptyString
  | String c s' => String (lower_char c) (lower s')
  end.

(** ASCII characters matched by Python's [\s] and stripped by
    [str.strip()]: [\t\n\v\f\r], [\x1c-\x1f] and space. *)
Definition is_ws (c : ascii) : bool :=
  let n := ascii_code c in
  ((9 <=? n)%nat && (n <=? 13)%nat) || ((28 <=? n)%nat && (n <=? 32)%nat).

(** The other characters for which [str.isspace()] holds, by their UTF-8
    encodings: U+0085 and U+00A0 (two bytes, C2 85 and C2 A0) *)
Definition ws_seq2 (c1 c2 : ascii) : bool :=
  (ascii_code c1 =? 194)%nat && ((ascii_code c2 =? 133)%nat || (ascii_code c2 =? 160)%nat).

(** and U+1680 (E1 9A 80), U+2000 to U+200A (E2 80 80 to E2 80 8A),
    U+2028 (E2 80 A8), U+2029 (E2 80 A9), U+202F (E2 80 AF), U+205F
    (E2 81 9F) and U+3000 (E3 80 80), three bytes each. *)
Definition ws_seq3 (c1 c2 c3 : ascii) : bool :=
  let n1 := ascii_code c1 in let n2 := ascii_code c2 in let n3 := ascii_code c3 in
  ((n1 =? 225)%nat && (n2 =? 154)%nat && (n3 =? 128)%nat)
  || ((n1 =? 226)%nat && (n2 =? 128)%nat
      && (((128 <=? n3)%nat && (n3 <=? 138)%nat)
          || (n3 =? 168)%nat || (n3 =? 169)%nat || (n3 =? 175)%nat))
  || ((n1 =? 226)%nat && (n2 =? 129)%nat && (n3 =? 159)%nat)
  || ((n1 =? 227)%nat && (n2 =? 128)%nat && (n3 =? 128)%nat).

(** [s.lstrip()]: drops whitespace characters from the front. *)
Fixpoint lstrip_ws (s : string) : string :=
  match s with
  | EmptyString => EmptyString
  | String c s1 =>
      if is_ws c then lstrip_ws s1 else
      match s1 with
      | String c2 s2 =>
          if ws_seq2 c c2 then lstrip_ws s2 else
          match s2 with
          | String c3 s3 => if ws_seq3 c c2 c3 then lstrip_ws s3 else s
          | EmptyString => s
          end
      | EmptyString => s
      end
  end.

(** The same on the reversed bytes of a string, i.e. [s.rstrip()] read
    from the end: a whitespace character's encoding appears reversed. *)
Fixpoint rlstrip_ws (s : string) : string :=
  match s with
  | EmptyString => EmptyString
  | String c s1 =>
      if is_ws c then rlstrip_ws s1 else
      match s1 with
      | String c2 s2 =>
          if ws_seq2 c2 c then rlstrip_ws s2 else
          match s2 with
          | String c3 s3 => if ws_seq3 c3 c2 c then rlstrip_ws s3 else s
          | EmptyString => s
          end
      | EmptyString => s
      end
  end.

Definition rev_string (s : string) : string := String.rev s.

(** [s.strip()] *)
Definition strip (s : string) : string :=
  rev_string (rlstrip_ws (rev_string (lstrip_ws s))).

(** [s.startswith(p)] *)
Definition startswith (p s : string) : bool := String.prefix p s.

(** [s.endswith(p)] *)
Definition endswith (p s : string) : bool :=
  let n := String.length s in
  let k := String.length p in
  (k <=? n)%nat && String.eqb (String.substring (n - k) k s) p.

(** [p in s] for strings. *)
Fixpoint contains (p s : string) : bool :=
  startswith p s ||
  match s with
  | EmptyString => false
  | String _ s' => contains p s'
  end.

(** [s.split(sep)] for a one-character separator. *)
Fixpoint split_on (sep : ascii) (s : string) : list string :=
  match s with
  | EmptyString => [EmptyString]
  | String c s' =>
      if Ascii.eqb c sep then EmptyString :: split_on sep s'
      else match split_on sep s' with
           | w :: ws => String c w :: ws
           | [] => [String c EmptyString]
           end
  end.

(** [sep.join(l)] *)
Definition join (sep : string) (l : list string) : string := String.concat sep l.

(** Decimal rendering of a [len(...)] or a counter ([str(n)]). *)
Fixpoint digits_go (fuel n : nat) (acc : string) : string :=
  match fuel with
  | O => acc
  | S fuel' =>
      let acc' := String (ascii_of_nat (48 + n mod 10)) acc in
      if (n <? 10)%nat then acc' else digits_go fuel' (n / 10) acc'
  end.

Definition nat_str (n : nat) : string := digits_go (S n) n EmptyString.

(* ------------------------------------------------------------------ *)
(** ** [sorted(xs, key=k)]: Python's stable sort *)

Section SortBy.
Context {A : Type} (key : A -> string).

(** Insert [x] after every element whose key is not greater than
    [key x]; folding it from the left gives a stable sort. *)
Fixpoint insert_by (x : A) (l : list A) : list A :=
  match l with
  | [] => [x]
  | y :: l' =>
      if String.ltb (key x) (key y) then x :: y :: l'
      else y :: insert_by x l'
  end.

Definition sort_by (l : list A) : list A :=
  fold_left (fun acc x => insert_by x acc) l [].
End SortBy.

(** [sorted(strings)] *)
Definition sort_strings (l : list string) : list string := sort_by (fun s => s) l.

(* ------------------------------------------------------------------ *)
(** ** File dictionaries exchanged between client and backend *)

(** [{"name": ..., "path": ..., "content": ...}]; an absent key and an
    empty string are both [EmptyString] (every read goes through
    [x.get(k) or ...] or [x.get(k, "")]). *)
Record file_dict := mk_file {
  fd_name : string;
  fd_path : string;
  fd_content : string
}.

(** [f.get("path") or f.get("name") or ""] *)
Definition path_or_name (f : file_dict) : string :=
  if String.eqb (fd_path f) EmptyString then fd_name f else fd_path f.

(** Sort key [(x.get("path") or x.get("name") or "").lower()]. *)
Definition file_key (f : file_dict) : string := lower (path_or_name f).

(** One fingerprint part ["{path}:{digest}"]. *)
Definition file_part (digest : string -> string) (f : file_dict) : string :=
  path_or_name f +:+ ":" +:+ digest (fd_content f).

(* ================================================================== *)
(** * The watcher client, [src/cli/bp.py] *)

Module Watcher.

(** [INCLUDE_EXT_DEFAULT], [INCLUDE_NAMES_DEFAULT], [EXCLUDE_DIRS_DEFAULT] *)
Definition INCLUDE_EXT_DEFAULT : list string :=
  [".tf"; ".tfvars"; ".hcl"; ".yaml"; ".yml"; ".json"; ".dockerfile"].
Definition INCLUDE_NAMES_DEFAULT : list string :=
  ["dockerfile"; "jenkinsfile"; "docker-compose.yml"; "docker-compose.yaml";
   "compose.yml"; "compose.yaml"; "chart.yaml"; "kustomization.yaml";
   "values.yaml"].
Definition EXCLUDE_DIRS_DEFAULT : list string :=
  [".git"; "node_modules"; "build"; "dist"; ".next"; ".cache"; ".venv";
   "venv"; "__pycache__"; ".idea"; ".vscode"; "coverage"; ".pytest_cache";
   "frontend/build"; "bp_files"].

Definition MAX_FILES_PER_BATCH : nat := 200.
Definition MAX_BYTES_PER_FILE : N := 400000%N.

Definition mem (x : string) (l : list string) : bool :=
  existsb (String.eqb x) l.

(** *** [_ignore_name]: the [IGNORE_BASENAME_REGEXES] under [re.match] *)

Definition no_newline (s : string) : bool :=
  negb (contains NL s).

(** [.*LIT$] matched from the start of [r]: [.*] does not cross a
    newline and [$] also matches before a final newline. *)
Definition dotstar_lit_dollar (lit r : string) : bool :=
  let n := String.length r in
  let k := String.length lit in
  (endswith lit r && no_newline (String.substring 0 (n - k) r)) ||
  (endswith (lit +:+ NL) r && no_newline (String.substring 0 (n - k - 1) r)).

Definition drop1 (s : string) : string :=
  match s with EmptyString => EmptyString | String _ s' => s' end.

(** [^\.?#.*#$] *)
Definition ignore_hash (n : string) : bool :=
  let n1 := if startswith "." n then drop1 n else n in
  startswith "#" n1 && dotstar_lit_dollar "#" (drop1 n1).

Definition _ignore_name (name : string) : bool :=
  ignore_hash name                       (* ^\.?#.*#$ *)
  || startswith "~$" name                (* ^~\$.*    *)
  || dotstar_lit_dollar ".swp" name      (* .*\.swp$  *)
  || dotstar_lit_dollar ".swx" name      (* .*\.swx$  *)
  || dotstar_lit_dollar ".tmp" name      (* .*\.tmp$  *)
  || dotstar_lit_dollar ".temp" name     (* .*\.temp$ *)
  || dotstar_lit_dollar "~" name.        (* .*~$      *)

(** *** [Path.suffix] and [_in_scope] *)

Fixpoint rfind_go (c : ascii) (s : string) (i : nat) (best : option nat)
  : option nat :=
  match s with
  | EmptyString => best
  | String d s' => rfind_go c s' (S i) (if Ascii.eqb c d then Some i else best)
  end.

(** [name.rfind(".")], [None] for [-1]. *)
Definition rfind_dot (name : string) : option nat := rfind_go "." name 0 None.

(** [PurePath.suffix]: [name[i:]] when [0 < i < len(name) - 1]. *)
Definition suffix (name : string) : string :=
  match rfind_dot name with
  | Some i =>
      if (0 <? i)%nat && (i <? String.length name - 1)%nat
      then String.substring i (String.length name - i) name
      else EmptyString
  | None => EmptyString
  end.

(** [_in_scope(p, include_ext, include_names)] on the basename [p.name]. *)
Definition _in_scope (include_ext include_names : list string) (name : string)
  : bool :=
  let n := lower name in
  negb (_ignore_name n) &&
  (mem n include_names || mem (lower (suffix name)) include_ext).

(** *** Relative paths *)

(** [Path(rel).parts] of a root-relative path built by [H._q]. *)
Definition rel_parts (rel : string) : list string :=
  if String.eqb rel "." then [] else split_on "/" rel.

(** [Path(rel).name] *)
Definition basename (rel : string) : string := List.last (rel_parts rel) EmptyString.

(** [parts[:-1]]: the directory segments. *)
Definition dir_parts (rel : string) : list string := removelast (rel_parts rel).

(** *** [_collect_specific] *)

Section Collect.
(** [_load_cfg()]: include/exclude sets of the configuration. *)
Variables include_ext include_names exclude_dirs : list string.

(** The file system seen through [(root / rel)]: [Some bytes] when the
    path exists, is a regular file and can be read; [None] otherwise.
    Paths are modelled already resolved (no symlinks), so
    [p.relative_to(root)] succeeds and gives back [rel]. *)
Variable fs_read : string -> option string.

Fixpoint collect_go (rels : list string) (out : list file_dict) : list file_dict :=
  match rels with
  | [] => out
  | rel :: rels' =>
      if existsb (fun part => mem part exclude_dirs) (dir_parts rel)
      then collect_go rels' out
      else match fs_read rel with
           | None => collect_go rels' out
           | Some bytes =>
               if negb (_in_scope include_ext include_names (basename rel))
               then collect_go rels' out
               else if (MAX_BYTES_PER_FILE <? N.of_nat (String.length bytes))%N
               then collect_go rels' out
               else
                 let out' := out ++ [mk_file (basename rel) rel bytes] in
                 if (MAX_FILES_PER_BATCH <=? length out')%nat then out'
                 else collect_go rels' out'
           end
  end.

Definition _collect_specific (paths : list string) : list file_dict :=
  collect_go (sort_strings paths) [].
End Collect.

(** *** [_batch_id] *)

Section BatchId.
(** [_hash_txt]: [sha256(s.encode("utf-8", "ignore")).hexdigest()]. *)
Variable digest : string -> string.

Definition batch_id_seed (files : list file_dict) (reason : string) : string :=
  reason +:+ "|" +:+ join "|" (map (file_part digest) (sort_by file_key files)).

Definition _batch_id (files : list file_dict) (reason : string) : string :=
  digest (batch_id_seed files reason).
End BatchId.

(** *** Watch-session state ([watch]'s closure variables) *)

(** [last_notify] entries [{"ts": ..., "digest": ...}]. *)
Record notify_entry := mk_notify { ln_ts : Z; ln_digest : string }.

Record wstate := mk_wstate {
  pending_paths : list string;                  (* set[str] *)
  pending_created : list string;                (* set[str] *)
  last_event_ts : Z;
  file_seen : gmap string bool;
  last_notify : gmap string notify_entry;
  recent_batch_ids : list (Z * string)          (* [(ts, bid)], oldest first *)
}.

(** [s.add(x)] on a list without duplicates. *)
Definition set_add (x : string) (s : list string) : list string :=
  if mem x s then s else s ++ [x].

(** *** [H._q]: the event handler *)

(** A watchdog event: [e.is_directory] and [e.src_path] as the segments
    of an absolute, resolved path. *)
Record fs_event := mk_event { ev_is_directory : bool; ev_src_path : list string }.

Fixpoint strip_prefix (pre l : list string) : option (list string) :=
  match pre, l with
  | [], _ => Some l
  | x :: pre', y :: l' => if String.eqb x y then strip_prefix pre' l' else None
  | _ :: _, [] => None
  end.

Section Handler.
Variables include_ext include_names : list string.
(** [root.resolve()] as path segments. *)
Variable root : list string.

(** The root-relative path [H._q] queues for an event, or [None] when
    it returns early. *)
Definition event_rel (e : fs_event) : option string :=
  if ev_is_directory e then None
  else if negb (_in_scope include_ext include_names
                  (List.last (ev_src_path e) EmptyString)) then None
  else match strip_prefix root (ev_src_path e) with
       | None => None                      (* relative_to raised *)
       | Some [] => Some "."
       | Some segs => Some (join "/" segs)
       end.

Definition h_q (now : Z) (e : fs_event) (created : bool) (st : wstate) : wstate :=
  match event_rel e with
  | None => st
  | Some rel =>
      {| pending_paths := set_add rel (pending_paths st);
         pending_created :=
           if created then set_add rel (pending_created st) else pending_created st;
         last_event_ts := now;
         file_seen := file_seen st;
         last_notify := last_notify st;
         recent_batch_ids := recent_batch_ids st |}
  end.
End Handler.

(** *** [_maybe_send]: one tick of the dispatch loop *)

(** What the world answers during one tick: the file system read by
    [_collect_specific], and whether [_post_batch] returned (a JSON
    answer) or raised. *)
Record tick_env := mk_tick_env {
  te_fs_read : string -> option string;
  te_post_ok : bool
}.

(** How [_maybe_send] ended. *)
Inductive tick_outcome :=
  | TIdle                       (* returned before materialising *)
  | TNothingRead                (* [files_all] empty *)
  | TAllCoolingDown             (* [files_to_send] empty *)
  | TDuplicate (bid : string)   (* [_already(bid, now)] *)
  | TPosted (reason : string) (files : list file_dict) (created : list string)
            (bid : string) (ok : bool).

Definition materialized (o : tick_outcome) : bool :=
  match o with TIdle => false | _ => true end.

Section Dispatch.
Variable digest : string -> string.
Variables DEBOUNCE_SECONDS INPUT_DEDUPE_TTL FILE_COOLDOWN_SEC : Z.
Variables include_ext include_names exclude_dirs : list string.

(** [_evict(now)]: pop from the front while the oldest entry is
    older than [INPUT_DEDUPE_TTL]. *)
Fixpoint evict (now : Z) (l : list (Z * string)) : list (Z * string) :=
  match l with
  | [] => []
  | (ts, b) :: l' => if INPUT_DEDUPE_TTL <? now - ts then evict now l' else l
  end.

(** [_already(bid, now)], with the eviction it performs. *)
Definition already (bid : string) (now : Z) (l : list (Z * string))
  : bool * list (Z * string) :=
  let l' := evict now l in
  (existsb (fun p => String.eqb p.2 bid) l', l').

(** [_remember(bid, now)] *)
Definition remember (bid : string) (now : Z) (l : list (Z * string))
  : list (Z * string) :=
  evict now (l ++ [(now, bid)]).

(** The cooldown test of the materialisation loop:
    [ln and (now - ln["ts"]) < FILE_COOLDOWN_SEC and ln["digest"] == digest]. *)
Definition cooldown_hit (now : Z) (ln : gmap string notify_entry)
    (path d : string) : bool :=
  match ln !! path with
  | Some e => (now - ln_ts e <? FILE_COOLDOWN_SEC) && String.eqb (ln_digest e) d
  | None => false
  end.

(** The [for f in files_all] loop: [(files_to_send, created_paths)]. *)
Fixpoint select_files (now : Z) (ln : gmap string notify_entry)
    (seen : gmap string bool) (pc : list string) (files : list file_dict)
    : list file_dict * list string :=
  match files with
  | [] => ([], [])
  | f :: rest =>
      let path := fd_path f in
      let d := digest (fd_content f) in
      let '(ts, cs) := select_files now ln seen pc rest in
      if cooldown_hit now ln path d then (ts, cs)
      else (f :: ts,
            if mem path pc && negb (default false (seen !! path))
            then path :: cs else cs)
  end.

Definition clear_pending (st : wstate) : wstate :=
  {| pending_paths := []; pending_created := [];
     last_event_ts := last_event_ts st; file_seen := file_seen st;
     last_notify := last_notify st; recent_batch_ids := recent_batch_ids st |}.

Definition mark_seen (files : list file_dict) (seen : gmap string bool)
  : gmap string bool :=
  fold_left (fun m f => <[fd_path f := true]> m) files seen.

Definition record_notify (now : Z) (files : list file_dict)
    (ln : gmap string notify_entry) : gmap string notify_entry :=
  fold_left (fun m f => <[fd_path f := mk_notify now (digest (fd_content f))]> m)
    files ln.

Definition reason_of (created : list string) : string :=
  match created with [] => "modified" | _ => "created" end.

Definition _maybe_send (now : Z) (env : tick_env) (st : wstate)
  : wstate * tick_outcome :=
  match pending_paths st with
  | [] => (st, TIdle)
  | _ =>
    if now - last_event_ts st <? DEBOUNCE_SECONDS then (st, TIdle)
    else
      let files_all := _collect_specific include_ext include_names exclude_dirs
                         (te_fs_read env) (pending_paths st) in
      match files_all with
      | [] => (clear_pending st, TNothingRead)
      | _ =>
        let '(files_to_send, created_paths) :=
          select_files now (last_notify st) (file_seen st) (pending_created st)
            files_all in
        match files_to_send with
        | [] => (clear_pending st, TAllCoolingDown)
        | _ =>
          let bid := _batch_id digest files_to_send (reason_of created_paths) in
          let '(dup, rb) := already bid now (recent_batch_ids st) in
          if dup then
            (clear_pending {| pending_paths := pending_paths st;
                              pending_created := pending_created st;
                              last_event_ts := last_event_ts st;
                              file_seen := file_seen st;
                              last_notify := last_notify st;
                              recent_batch_ids := rb |},
             TDuplicate bid)
          else
            let seen' := mark_seen files_to_send (file_seen st) in
            let reason := reason_of created_paths in
            if te_post_ok env then
              ({| pending_paths := []; pending_created := [];
                  last_event_ts := last_event_ts st;
                  file_seen := seen';
                  last_notify := record_notify now files_to_send (last_notify st);
                  recent_batch_ids := remember bid now rb |},
               TPosted reason files_to_send created_paths bid true)
            else
              ({| pending_paths := []; pending_created := [];
                  last_event_ts := last_event_ts st;
                  file_seen := seen';
                  last_notify := last_notify st;
                  recent_batch_ids := rb |},
               TPosted reason files_to_send created_paths bid false)
        end
      end
  end.
End Dispatch.

(** *** The watch session: events and ticks interleaved *)

Inductive action :=
  | AEvent (t : Z) (e : fs_event) (created : bool)   (* on_created / on_modified *)
  | ATick (t : Z) (env : tick_env).                  (* time.sleep(1); _maybe_send() *)

Definition act_time (a : action) : Z :=
  match a with AEvent t _ _ => t | ATick t _ => t end.

Definition is_event (a : action) : bool :=
  match a with AEvent _ _ _ => true | ATick _ _ => false end.

Section Session.
Variable digest : string -> string.
Variables DEBOUNCE_SECONDS INPUT_DEDUPE_TTL FILE_COOLDOWN_SEC : Z.
Variables include_ext include_names exclude_dirs : list string.
Variable root : list string.

(** Runs a session from a state; returns the final state and the
    outcome of every tick with its time. *)
Fixpoint run (st : wstate) (tr : list action) : wstate * list (Z * tick_outcome) :=
  match tr with
  | [] => (st, [])
  | AEvent t e c :: tr' => run (h_q include_ext include_names root t e c st) tr'
  | ATick t env :: tr' =>
      let '(st1, o) := _maybe_send digest DEBOUNCE_SECONDS INPUT_DEDUPE_TTL
                         FILE_COOLDOWN_SEC include_ext include_names exclude_dirs
                         t env st in
      let '(st2, os) := run st1 tr' in
      (st2, (t, o) :: os)
  end.
End Session.

(** *** A concrete session configuration (the defaults of [bp.py]) *)

(** An injective stand-in for [_hash_txt]. *)
Definition sample_digest (s : string) : string := s.

Definition sample_root : list string := ["home"; "dev"; "repo"].

Definition empty_wstate : wstate :=
  mk_wstate [] [] 0 ∅ ∅ [].

Definition sample_send (now : Z) (env : tick_env) (st : wstate) :=
  _maybe_send sample_digest 10 180 300
    INCLUDE_EXT_DEFAULT INCLUDE_NAMES_DEFAULT EXCLUDE_DIRS_DEFAULT now env st.

Definition sample_hq (now : Z) (e : fs_event) (created : bool) (st : wstate) :=
  h_q INCLUDE_EXT_DEFAULT INCLUDE_NAMES_DEFAULT sample_root now e created st.

Definition sample_fs (rel : string) : option string :=
  if String.eqb rel "a.yml" then Some "image: nginx:latest"
  else if String.eqb rel "b.yml" then Some "replicas: 1"
  else None.

Definition sample_env : tick_env := mk_tick_env sample_fs true.

(** [a.yml] created, then [b.yml] modified, both within one quiet period. *)
Definition created_and_modified : wstate :=
  sample_hq 2 (mk_event false (sample_root ++ ["b.yml"])) false
    (sample_hq 1 (mk_event false (sample_root ++ ["a.yml"])) true empty_wstate).

(** *** Shapes of event bursts *)

(** Every event of the trace comes less than [window] after the event
    before it ([last] is the time of the previous event, if any). *)
Fixpoint quick_events (window : Z) (last : option Z) (tr : list action) : Prop :=
  match tr with
  | [] => True
  | AEvent t _ _ :: tr' =>
      match last with Some l => t - l < window | None => True end
      /\ quick_events window (Some t) tr'
  | ATick _ _ :: tr' => quick_events window last tr'
  end.

(** The trace is in time order. *)
Definition chronological (tr : list action) : Prop :=
  Sorted (fun a b => act_time a <= act_time b) tr.

(** Every event of the trace is [e] reported as modified. *)
Definition only_modifies_of (e : fs_event) (tr : list action) : Prop :=
  Forall (fun a => match a with AEvent _ e' c => e' = e /\ c = false | ATick _ _ => True end) tr.

Definition only_ticks (tr : list action) : Prop :=
  Forall (fun a => is_event a = false) tr.

(** Number of ticks that materialised a batch. *)
Definition materializations (outs : list (Z * tick_outcome)) : nat :=
  length (List.filter (fun to => materialized to.2) outs).

End Watcher.

(* ================================================================== *)
(** * The analysis backend, [src/backend/app.py] *)

Module Backend.

(** The JSON body of [/api/analyze_batch] as [bp.py] builds it in
    [_post_batch]; an absent key and an empty value are both empty. *)
Record payload := mk_payload {
  pl_email : string;
  pl_files : list file_dict;
  pl_notify_reason : string;
  pl_created_paths : list string;
  pl_repo_id : string;
  pl_batch_id : string
}.

(** [EMAIL_STATE] entries [{"ts": ..., "digest": ...}]. *)
Record email_entry := mk_email_entry { es_ts : Z; es_digest : string }.

(** The process-wide [RECENT_BATCH] and [EMAIL_STATE] dictionaries. *)
Record server_state := mk_sstate {
  recent_batch : gmap string Z;
  email_state : gmap string email_entry
}.

(** The JSON answers of [analyze_batch]; keys a branch does not emit are
    [false]/[None]. *)
Record response := mk_response {
  r_files_analyzed : nat;
  r_issues_found : nat;
  r_email_sent : bool;
  r_deduped : bool;
  r_suppressed : option string;
  r_results : option (list (string * list string));
  r_dedupe_fp : option string
}.

(** Calls to the outside world made while serving one request. *)
Inductive effect :=
  | EAnalyze (filename : string)                      (* one [ai_scan] *)
  | EEmail (to_addr subject body : string).           (* one [send_email] *)

(** A chat message [{"role": ..., "content": ...}]. *)
Definition message : Type := string * string.

(** *** [_batch_fingerprint] *)

Section Fingerprint.
(** [_digest]: [sha256(text.encode("utf-8", "ignore")).hexdigest()]. *)
Variable digest : string -> string.

Definition fingerprint_parts (p : payload) : list string :=
  [pl_repo_id p; pl_notify_reason p] ++ sort_strings (pl_created_paths p) ++
  map (file_part digest) (sort_by file_key (pl_files p)).

Definition fingerprint_seed (p : payload) : string :=
  join "|" (fingerprint_parts p).

Definition _batch_fingerprint (p : payload) : string :=
  digest (fingerprint_seed p).
End Fingerprint.

(** *** [guess_domain] *)

Definition guess_domain (name content : string) : string :=
  let n := lower name in
  if endswith ".tf" n || contains "terraform" (lower content) then "Terraform"
  else if String.eqb n "dockerfile" || endswith ".dockerfile" n then "Docker"
  else if String.eqb n "jenkinsfile" || contains "pipeline" (lower content)
  then "Jenkins"
  else if endswith ".yml" n || endswith ".yaml" n then
    (if contains "argoproj.io" content then "ArgoCD" else "Kubernetes")
  else "General".

(** *** [ai_scan]: prompt construction and reply clean-up *)

Definition sys_msg : string :=
  "You are a senior DevOps engineer. Read the file and output only concrete bad practices " +:+
  "or risky choices as short bullets (no intros, no headings). If nothing meaningful is wrong, reply exactly: No issues".

Definition snippet (content : string) : string :=
  if (String.length content <=? 16000)%nat then content
  else String.substring 0 16000 content +:+ NL +:+ "...[truncated]...".

Definition fence : string := "```".

Definition user_msg (domain filename content : string) : string :=
  "Domain hint: " +:+ domain +:+ NL +:+
  "File: " +:+ filename +:+ NL +:+
  "Code:" +:+ NL +:+
  fence +:+ NL +:+ snippet content +:+ NL +:+ fence.

Definition scan_messages (domain filename content : string) : list message :=
  [("system", sys_msg); ("user", user_msg domain filename content)].

(** [str.splitlines()]: breaks at [\n], [\r], [\r\n], [\v], [\f],
    [\x1c]-[\x1e], and the UTF-8 encodings of [\x85], [\u2028] and
    [\u2029]; no trailing empty line. [cur] is the current line,
    reversed. *)
Fixpoint splitlines_go (cur : string) (s : string) : list string :=
  match s with
  | EmptyString => match cur with EmptyString => [] | _ => [rev_string cur] end
  | String c s1 =>
      let n := ascii_code c in
      if (n =? 13)%nat then
        match s1 with
        | String c2 s2 =>
            if (ascii_code c2 =? 10)%nat then rev_string cur :: splitlines_go EmptyString s2
            else rev_string cur :: splitlines_go EmptyString s1
        | EmptyString => [rev_string cur]
        end
      else if (n =? 10)%nat || (n =? 11)%nat || (n =? 12)%nat
              || (n =? 28)%nat || (n =? 29)%nat || (n =? 30)%nat
      then rev_string cur :: splitlines_go EmptyString s1
      else if (n =? 194)%nat then
        match s1 with
        | String c2 s2 =>
            if (ascii_code c2 =? 133)%nat then rev_string cur :: splitlines_go EmptyString s2
            else splitlines_go (String c cur) s1
        | EmptyString => splitlines_go (String c cur) s1
        end
      else if (n =? 226)%nat then
        match s1 with
        | String c2 (String c3 s3) =>
            if (ascii_code c2 =? 128)%nat
               && ((ascii_code c3 =? 168)%nat || (ascii_code c3 =? 169)%nat)
            then rev_string cur :: splitlines_go EmptyString s3
            else splitlines_go (String c cur) s1
        | _ => splitlines_go (String c cur) s1
        end
      else splitlines_go (String c cur) s1
  end.

Definition splitlines (s : string) : list string := splitlines_go EmptyString s.

Definition bullet_bytes : string := "-*0123456789.) ".

(** [line.lstrip("-*•–—0123456789.) ")]: single ASCII characters of the
    set, and the three-byte encodings of [•] (E2 80 A2), [–] (E2 80 93)
    and [—] (E2 80 94). *)
Fixpoint lstrip_bullets (s : string) : string :=
  match s with
  | EmptyString => EmptyString
  | String c s1 =>
      if existsb (Ascii.eqb c) (String.list_ascii_of_string bullet_bytes)
      then lstrip_bullets s1
      else if (ascii_code c =? 226)%nat then
        match s1 with
        | String c2 (String c3 s3) =>
            if (ascii_code c2 =? 128)%nat
               && ((ascii_code c3 =? 162)%nat || (ascii_code c3 =? 147)%nat
                   || (ascii_code c3 =? 148)%nat)
            then lstrip_bullets s3 else s
        | _ => s
        end
      else s
  end.

(** [re.search(r"here('?| i)s a list|potential issues|bad practices", line, re.I)] *)
Definition is_preamble (line : string) : bool :=
  let l := lower line in
  contains "here's a list" l || contains "heres a list" l
  || contains "here is a list" l || contains "potential issues" l
  || contains "bad practices" l.

Definition strip_prefix_str (p s : string) : option string :=
  if startswith p s
  then Some (String.substring (String.length p) (String.length s - String.length p) s)
  else None.

(** [re.fullmatch(r"(?i)no\s+issues(\s+found)?\.?", line)] *)
Definition no_issues_full (line : string) : bool :=
  let l := lower line in
  match strip_prefix_str "no" l with
  | None => false
  | Some r1 =>
      let r2 := lstrip_ws r1 in
      if String.eqb r2 r1 then false
      else match strip_prefix_str "issues" r2 with
           | None => false
           | Some r3 =>
               String.eqb r3 EmptyString || String.eqb r3 "."
               || (let r4 := lstrip_ws r3 in
                   negb (String.eqb r4 r3)
                   && (String.eqb r4 "found" || String.eqb r4 "found."))
           end
  end.

(** The normalisation loop; [None] is its early [return []]. *)
Fixpoint clean_go (lines acc : list string) : option (list string) :=
  match lines with
  | [] => Some acc
  | raw :: rest =>
      let line := strip raw in
      if String.eqb line EmptyString then clean_go rest acc
      else
        let line := strip (lstrip_bullets line) in
        if is_preamble line then clean_go rest acc
        else if no_issues_full line then None
        else clean_go rest (acc ++ [line])
  end.

(** [seen=set(); out=[]; for w in lines: if w and w not in seen: ...] *)
Fixpoint dedupe_go (ws seen : list string) : list string :=
  match ws with
  | [] => []
  | w :: ws' =>
      if negb (String.eqb w EmptyString) && negb (Watcher.mem w seen)
      then w :: dedupe_go ws' (w :: seen)
      else dedupe_go ws' seen
  end.

Definition clean_reply (txt : string) : list string :=
  match clean_go (splitlines txt) [] with
  | None => []
  | Some lines => firstn 50 (dedupe_go lines [])
  end.

Section Scan.
(** [llm_chat(messages)]: [Some reply] (already [.strip()]ped), or
    [None] when it raises. *)
Variable llm : list message -> option string.

Definition ai_scan (domain filename content : string) : list string :=
  match llm (scan_messages domain filename content) with
  | None => []                                  (* except Exception: return [] *)
  | Some txt => clean_reply txt
  end.
End Scan.

(** *** [_format_email] *)

(** [results] is a Python dict: insertion-ordered, [results[k] = v]
    overwrites in place. *)
Fixpoint dict_set (k : string) (v : list string) (d : list (string * list string))
  : list (string * list string) :=
  match d with
  | [] => [(k, v)]
  | (k', v') :: d' => if String.eqb k k' then (k, v) :: d' else (k', v') :: dict_set k v d'
  end.

Fixpoint repeat_str (n : nat) (s : string) : string :=
  match n with O => EmptyString | S n' => s +:+ repeat_str n' s end.

Fixpoint enumerate_lines (i : nat) (ws : list string) : list string :=
  match ws with
  | [] => []
  | w :: ws' => (nat_str i +:+ ". " +:+ w) :: enumerate_lines (S i) ws'
  end.

Definition file_lines (fw : string * list string) : list string :=
  match fw.2 with
  | [] => []
  | warns =>
      ["▶ " +:+ fw.1 +:+ "  —  " +:+ nat_str (length warns) +:+ " issue(s)";
       repeat_str 38 "-"] ++ enumerate_lines 1 warns ++ [EmptyString]
  end.

(** [_format_email(email, reason, created_paths, results)]; [ts] is
    [_now_iso()]. Returns [(subject, body)]. *)
Definition _format_email (email reason : string) (created_paths : list string)
    (results : list (string * list string)) (ts : string) : string * string :=
  let total := sum_list_with (fun kv => length kv.2) results in
  let files_with := List.filter (fun kv => negb (bool_decide (kv.2 = []))) results in
  let '(subject, intro) :=
    if String.eqb reason "initial" then
      ("[BadPractice Agent] Repository audit — " +:+ nat_str total +:+ " issue(s) noted",
       "BadPractice Report  •  " +:+ ts +:+ NL +:+ NL)
    else match created_paths with
         | fn :: _ =>
             ("[BadPractice Agent] New file flagged — " +:+ fn +:+ " (" +:+
                nat_str total +:+ " issue(s))",
              "A newly created file was flagged. Timestamp: " +:+ ts +:+ NL +:+ NL)
         | [] =>
             ("[BadPractice Agent] File update flagged — " +:+ nat_str total +:+ " issue(s)",
              "A change introduced issues. Timestamp: " +:+ ts +:+ NL +:+ NL)
         end in
  let lines :=
    [intro; "Issues: " +:+ nat_str total +:+ "   Files affected: " +:+
              nat_str (length files_with) +:+ NL]
    ++ concat (map file_lines results)
    ++ ["Automated by BadPractice Agent. Reply to this email if you need help triaging." +:+ NL] in
  (subject, join NL lines).

(** *** The request handler *)

Section Server.
Variable digest : string -> string.
(** [BATCH_TTL], [EMAIL_MIN_INTERVAL], [ALLOW_MULTI_MOD_EMAILS]. *)
Variables BATCH_TTL EMAIL_MIN_INTERVAL : Z.
Variable ALLOW_MULTI_MOD_EMAILS : bool.
Variable llm : list message -> option string.
(** [send_email(to, subject, body)]: [False] when SMTP is not
    configured or the transfer raised. *)
Variable smtp : string -> string -> string -> bool.

(** [_should_send(email, body)] at time [now]. *)
Definition _should_send (now : Z) (email body : string) (st : server_state)
  : server_state * bool :=
  let dg := digest body in
  match email_state st !! email with
  | Some e =>
      if String.eqb (es_digest e) dg && (now - es_ts e <? EMAIL_MIN_INTERVAL)
      then (st, false)
      else (mk_sstate (recent_batch st) (<[email := mk_email_entry now dg]> (email_state st)), true)
  | None =>
      (mk_sstate (recent_batch st) (<[email := mk_email_entry now dg]> (email_state st)), true)
  end.

(** [for k in list(RECENT_BATCH): if now - RECENT_BATCH[k] > BATCH_TTL: del ...] *)
Definition prune (now : Z) (rb : gmap string Z) : gmap string Z :=
  filter (fun kv : string * Z => (now - kv.2 <=? BATCH_TTL) = true) rb.

Definition dedup_response (p : payload) : response :=
  mk_response (length (pl_files p)) 0 false true None None None.

Definition suppressed_response (p : payload) : response :=
  mk_response (length (pl_files p)) 0 false false (Some "multi-file-modified") None None.

(** Lines 198-205: fingerprint, prune, duplicate test, record.
    [None] means the request goes on. *)
Definition dedup_phase (now : Z) (p : payload) (st : server_state)
  : server_state * option response :=
  let fp := _batch_fingerprint digest p in
  let rb := prune now (recent_batch st) in
  match rb !! fp with
  | Some _ => (mk_sstate rb (email_state st), Some (dedup_response p))
  | None => (mk_sstate (<[fp := now]> rb) (email_state st), None)
  end.

(** [data.get("notify_reason") or "initial"] *)
Definition handler_reason (p : payload) : string :=
  if String.eqb (pl_notify_reason p) EmptyString then "initial" else pl_notify_reason p.

(** [(f.get("path") or f.get("name") or "unknown")] *)
Definition scan_name (f : file_dict) : string :=
  if String.eqb (path_or_name f) EmptyString then "unknown" else path_or_name f.

(** The [for f in files] loop: [results], [total] and the [ai_scan]
    calls made. *)
Fixpoint scan_files (files : list file_dict) (results : list (string * list string))
    (total : nat) : list (string * list string) * nat * list effect :=
  match files with
  | [] => (results, total, [])
  | f :: rest =>
      let name := scan_name f in
      let content := fd_content f in
      let domain := guess_domain name content in
      let warns := ai_scan llm domain name content in
      let '(res', tot', effs) :=
        scan_files rest (dict_set name warns results) (total + length warns) in
      (res', tot', EAnalyze name :: effs)
  end.

(** Lines 227-231: [sent] and the e-mail sent, if any. *)
Definition notify_phase (now_mail : Z) (now_iso email reason : string)
    (created : list string) (results : list (string * list string)) (total : nat)
    (st : server_state) : server_state * list effect * bool :=
  if negb (String.eqb email EmptyString) && (0 <? total)%nat then
    let '(subject, body) := _format_email email reason created results now_iso in
    let '(st', go) := _should_send now_mail email body st in
    if go then (st', [EEmail email subject body], smtp email subject body)
    else (st', [], false)
  else (st, [], false).

(** Lines 207-239, after the duplicate test. *)
Definition scan_phase (now_mail : Z) (now_iso : string) (fp : string) (p : payload)
    (st : server_state) : server_state * list effect * response :=
  let email := strip (pl_email p) in
  let files := pl_files p in
  let reason := handler_reason p in
  let created := pl_created_paths p in
  if negb ALLOW_MULTI_MOD_EMAILS && String.eqb reason "modified"
     && bool_decide (created = []) && (1 <? length files)%nat
  then (st, [], suppressed_response p)
  else
    let '(results, total, effs) := scan_files files [] 0 in
    let '(st', effs', sent) := notify_phase now_mail now_iso email reason created
                                 results total st in
    (st', effs ++ effs',
     mk_response (length files) total sent false None (Some results) (Some fp)).

(** [analyze_batch()]: [now] is the first [time.time()], [now_mail]
    the one read by [_should_send], [now_iso] the [_now_iso()] stamp. *)
Definition analyze_batch (now now_mail : Z) (now_iso : string) (p : payload)
    (st : server_state) : server_state * list effect * response :=
  match dedup_phase now p st with
  | (st1, Some r) => (st1, [], r)
  | (st1, None) => scan_phase now_mail now_iso (_batch_fingerprint digest p) p st1
  end.
End Server.

End Backend.

(* ================================================================== *)
(** * The wire between them: [_post_batch] *)
Module Wire.
Import Backend.

(** The JSON body [_post_batch] posts. [repo_hints] is sent but no
    [repo_id] key, so the server reads [repo_id] as empty. *)
Definition post_payload (email : string) (files : list file_dict) (reason : string)
    (created_paths : list string) (batch_id : string) : payload :=
  mk_payload email files reason created_paths EmptyString batch_id.

End Wire.

(* ================================================================== *)
(** * Client set-up helpers of [src/cli/bp.py] *)
Module ClientSetup.
Import Watcher.

(** *** [_parse_env_keys] *)

(** [[A-Za-z_]] *)
Definition ident_start (c : ascii) : bool :=
  let n := ascii_code c in
  ((65 <=? n)%nat && (n <=? 90)%nat) || ((97 <=? n)%nat && (n <=? 122)%nat)
  || (n =? 95)%nat.

(** [[A-Za-z0-9_]] *)
Definition ident_char (c : ascii) : bool :=
  ident_start c || ((48 <=? ascii_code c)%nat && (ascii_code c <=? 57)%nat).

(** [[A-Za-z0-9_]*$]: the class repeated, then the end of the string or
    a final newline before it. *)
Fixpoint ident_tail (s : string) : bool :=
  match s with
  | EmptyString => true
  | String c s' =>
      (ident_char c && ident_tail s') || (Ascii.eqb c "010"%char && String.eqb s' EmptyString)
  end.

(** [re.match(r"^[A-Za-z_][A-Za-z0-9_]*$", k)] *)
Definition ident_match (k : string) : bool :=
  match k with
  | EmptyString => false
  | String c r => ident_start c && ident_tail r
  end.

(** [t.split("=", 1)[0]] *)
Definition before_eq (t : string) : string := hd EmptyString (split_on "=" t).

(** The loop over [text.splitlines()]; [keys] is the set built so far. *)
Fixpoint parse_env_go (lines keys : list string) : list string :=
  match lines with
  | [] => keys
  | line :: rest =>
      let t := strip line in
      if String.eqb t EmptyString || startswith "#" t then parse_env_go rest keys
      else if contains "=" t then
        let k := strip (before_eq t) in
        if ident_match k then parse_env_go rest (set_add k keys)
        else parse_env_go rest keys
      else parse_env_go rest keys
  end.

Definition _parse_env_keys (text : string) : list string :=
  parse_env_go (Backend.splitlines text) [].

(** *** [API_CANDIDATES] and [_detect_api_base] *)

(** [API_CANDIDATES] for a value of [BP_API_URL] (unset reads as empty). *)
Definition API_CANDIDATES (bp_api_url : string) : list string :=
  [if String.eqb (strip bp_api_url) EmptyString then "http://localhost:5000"
   else strip bp_api_url;
   "http://127.0.0.1:5000"; "http://localhost:8080"].

Section Detect.
(** [requests.get(url, timeout=3)] followed by [raise_for_status()]:
    [true] when neither raised. *)
Variable ping : string -> bool.
Variable candidates : list string.

(** The [for base in API_CANDIDATES] loop; [failed] is [last is not None]. *)
Fixpoint detect_go (cs : list string) (failed : bool) : string * bool :=
  match cs with
  | [] =>
      (default "http://localhost:5000"
         (List.find (fun b => negb (String.eqb b EmptyString)) candidates),
       negb failed)
  | base :: cs' =>
      if String.eqb base EmptyString then detect_go cs' failed
      else if ping (base +:+ "/api/ping") then (base, true)
      else detect_go cs' true
  end.

Definition _detect_api_base : string * bool := detect_go candidates false.
End Detect.

End ClientSetup.

(* ================================================================== *)
(** * Notions used by the statements *)
Module Notions.

(** Does the string contain the separator [|]? *)
Fixpoint has_bar (s : string) : bool :=
  match s with
  | EmptyString => false
  | String c s' => Ascii.eqb c "|"%char || has_bar s'
  end.

(** The strict order [<] of Python strings (code point order, which is
    UTF-8 byte order). *)
Definition slt (a b : string) : Prop := String.ltb a b = true.

(** [l] is strictly increasing by [key]. *)
Definition ksorted {A} (key : A -> string) (l : list A) : Prop :=
  StronglySorted (fun x y => slt (key x) (key y)) l.

(** Every character of [s] satisfies [p]. *)
Fixpoint all_chars (p : ascii -> bool) (s : string) : bool :=
  match s with
  | EmptyString => true
  | String c s' => p c && all_chars p s'
  end.

(** A shell-style variable name: a letter or [_], then letters, digits
    and [_], and nothing else. *)
Definition is_identifier (k : string) : bool :=
  match k with
  | EmptyString => false
  | String c r => ClientSetup.ident_start c && all_chars ClientSetup.ident_char r
  end.


End Notions.

(* ================================================================== *)
(** * Concrete inputs *)
Module Scenarios.
Import Watcher Backend.

Definition file_a : file_dict := mk_file "a.yml" "a.yml" "image: nginx:latest".
Definition file_b : file_dict := mk_file "b.yml" "b.yml" "replicas: 1".

(** A modify event on [a.yml]. *)
Definition touch_a : fs_event := mk_event false (sample_root ++ ["a.yml"]).

Definition burst_pre : list action :=
  [AEvent 1 touch_a false; ATick 2 sample_env; AEvent 3 touch_a false;
   ATick 4 sample_env; ATick 5 sample_env].

Definition burst_post : list action :=
  [ATick 7 sample_env; ATick 10 sample_env; ATick 16 sample_env; ATick 17 sample_env].

(** A file system in which every path reads as a manifest. *)
Definition fs_everything (rel : string) : option string := Some "image: nginx:latest".

(** An event under [node_modules/]. *)
Definition vendored_event : fs_event :=
  mk_event false (sample_root ++ ["node_modules"; "x"; "app.yaml"]).

(** The server with its defaults ([BP_BATCH_TTL] 180, [EMAIL_MIN_INTERVAL]
    120, [ALLOW_MULTI_MOD_EMAILS] off), a working SMTP relay, and an LLM
    that either flags one issue or raises on every call. *)
Definition llm_flags (m : list message) : option string := Some "- Runs as root".
Definition llm_down (m : list message) : option string := None.
Definition smtp_ok (to_addr subject body : string) : bool := true.

Definition empty_sstate : server_state := mk_sstate ∅ ∅.

Definition sample_analyze (llm : list message -> option string) :=
  analyze_batch sample_digest 180 120 false llm smtp_ok.

Definition stamp : string := "2026-10-18 12:00:00 UTC".

(** A batch announcing [x] as created, holding [a.yml]. *)
Definition created_batch (x : string) : payload :=
  mk_payload "dev@example.com" [file_a] "created" [x] EmptyString "bid".

(** Two modified files, no created path. *)
Definition multi_modified : payload :=
  mk_payload "dev@example.com" [file_a; file_b] "modified" [] EmptyString "bid".




End Scenarios.

(* ================================================================== *)
(** * Sanity checks of the model on small inputs *)
Module ModelExamples.
Import Watcher Backend.

Example nat_str_0 : nat_str 0 = "0". Proof. reflexivity. Qed.

Example nat_str_120 : nat_str 120 = "120". Proof. reflexivity. Qed.

Example lower_ex : lower "Chart.YAML" = "chart.yaml". Proof. reflexivity. Qed.

Example split_ex : split_on "/" "a/b/c.yml" = ["a"; "b"; "c.yml"].
Proof. reflexivity. Qed.

Example strip_ex : strip "  x y  " = "x y". Proof. reflexivity. Qed.

(** U+00A0 (C2 A0) and U+3000 (E3 80 80) are stripped as by Python. *)
Example strip_unicode_ex :
  strip (String (ascii_of_nat 227) (String (ascii_of_nat 128) (String (ascii_of_nat 128)
           ("a@b" +:+ String (ascii_of_nat 194) (String (ascii_of_nat 160) EmptyString)))))
  = "a@b".
Proof. reflexivity. Qed.

Example sort_by_stable :
  sort_by lower ["b"; "A"; "a"; "c"] = ["A"; "a"; "b"; "c"].
Proof. reflexivity. Qed.

Example in_scope_yaml :
  _in_scope INCLUDE_EXT_DEFAULT INCLUDE_NAMES_DEFAULT "app.yaml" = true.
Proof. reflexivity. Qed.

Example in_scope_dockerfile :
  _in_scope INCLUDE_EXT_DEFAULT INCLUDE_NAMES_DEFAULT "Dockerfile" = true.
Proof. reflexivity. Qed.

Example in_scope_swap :
  _in_scope INCLUDE_EXT_DEFAULT INCLUDE_NAMES_DEFAULT ".app.yaml.swp" = false.
Proof. reflexivity. Qed.

Example in_scope_emacs_lock :
  _in_scope INCLUDE_EXT_DEFAULT INCLUDE_NAMES_DEFAULT ".#x.yaml#" = false.
Proof. reflexivity. Qed.

Example in_scope_txt :
  _in_scope INCLUDE_EXT_DEFAULT INCLUDE_NAMES_DEFAULT "notes.txt" = false.
Proof. reflexivity. Qed.

Example created_and_modified_pending :
  pending_paths created_and_modified = ["a.yml"; "b.yml"] /\
  pending_created created_and_modified = ["a.yml"] /\
  last_event_ts created_and_modified = 2.
Proof. vm_compute. repeat split. Qed.

Example clean_reply_bullets :
  clean_reply ("Here is a list of issues:" +:+ NL +:+ "1. Uses latest tag" +:+ NL +:+
               "- Runs as root" +:+ NL +:+ "- Runs as root") =
  ["Uses latest tag"; "Runs as root"].
Proof. reflexivity. Qed.

Example clean_reply_none : clean_reply "No issues found." = [].
Proof. reflexivity. Qed.

End ModelExamples.

(* ================================================================== *)
(** * Properties of the watcher *)

Module WatcherFacts.
Import Watcher.

Section Facts.
Variable digest : string -> string.
Variables DEBOUNCE_SECONDS INPUT_DEDUPE_TTL FILE_COOLDOWN_SEC : Z.
Variables include_ext include_names exclude_dirs : list string.
Variable root : list string.

Abbreviation maybe_send :=
  (_maybe_send digest DEBOUNCE_SECONDS INPUT_DEDUPE_TTL FILE_COOLDOWN_SEC
     include_ext include_names exclude_dirs).
Abbreviation select := (select_files digest FILE_COOLDOWN_SEC).
Abbreviation collect := (_collect_specific include_ext include_names exclude_dirs).

(** *** One tick *)

Lemma maybe_send_quiet now env st :
  pending_paths st = [] \/ now - last_event_ts st < DEBOUNCE_SECONDS ->
  maybe_send now env st = (st, TIdle).
Proof.
  intros H. unfold _maybe_send.
  destruct (pending_paths st) eqn:Hp; [reflexivity|].
  destruct H as [H|H]; [discriminate|].
  apply Z.ltb_lt in H. rewrite H. reflexivity.
Qed.

Lemma maybe_send_fires now env st :
  pending_paths st <> [] -> DEBOUNCE_SECONDS <= now - last_event_ts st ->
  materialized (maybe_send now env st).2 = true.
Proof.
  intros Hp Hq. unfold _maybe_send.
  destruct (pending_paths st) eqn:Hpp; [congruence|].
  assert (Hf : (now - last_event_ts st <? DEBOUNCE_SECONDS) = false)
    by (apply Z.ltb_ge; lia).
  rewrite Hf. repeat case_match; reflexivity.
Qed.

Lemma maybe_send_after now env st st' o :
  maybe_send now env st = (st', o) ->
  last_event_ts st' = last_event_ts st /\
  (materialized o = false -> st' = st) /\
  (materialized o = true ->
   pending_paths st' = [] /\ pending_created st' = [] /\
   forall reason files created bid ok,
     o = TPosted reason files created bid ok ->
     select now (last_notify st) (file_seen st) (pending_created st)
       (collect (te_fs_read env) (pending_paths st)) = (files, created) /\
     reason = reason_of created).
Proof.
  unfold _maybe_send. intros H.
  repeat case_match; simplify_eq/=;
    repeat match goal with
           | |- _ /\ _ => split
           | |- _ -> _ => intro
           | |- forall _, _ => intro
           end; simplify_eq/=; try done.
Qed.

(** *** The cooldown filter *)

Lemma in_select now ln seen pc files f :
  In f (select now ln seen pc files).1 <->
  In f files /\ cooldown_hit FILE_COOLDOWN_SEC now ln (fd_path f) (digest (fd_content f)) = false.
Proof.
  induction files as [|g rest IH]; simpl; [tauto|].
  destruct (select now ln seen pc rest) as [ts cs] eqn:E. simpl in IH.
  destruct (cooldown_hit FILE_COOLDOWN_SEC now ln (fd_path g) (digest (fd_content g))) eqn:Hg;
    simpl; rewrite IH.
  - split; [tauto|]. intros [[<-|Hin] Hc]; [congruence|tauto].
  - split; [intros [<-|Hin]; tauto|]. intros [[<-|Hin] Hc]; tauto.
Qed.

Lemma cooldown_hit_true now ln path d :
  cooldown_hit FILE_COOLDOWN_SEC now ln path d = true <->
  exists e, ln !! path = Some e /\ ln_digest e = d /\ now - ln_ts e < FILE_COOLDOWN_SEC.
Proof.
  unfold cooldown_hit. destruct (ln !! path) as [e|]; split.
  - intros H. apply andb_true_iff in H as [H1 H2].
    apply Z.ltb_lt in H1. apply String.eqb_eq in H2. eauto.
  - intros (e' & He & Hd & Ht). injection He as <-.
    apply andb_true_iff. split; [apply Z.ltb_lt; lia|apply String.eqb_eq; done].
  - discriminate.
  - intros (e' & He & _). discriminate.
Qed.

(** *** Excluded directories *)

Lemma set_add_in x s : In x (set_add x s).
Proof.
  unfold set_add. destruct (mem x s) eqn:Hm.
  - apply existsb_exists in Hm as (y & Hy & Hxy). apply String.eqb_eq in Hxy. subst. done.
  - apply in_or_app. right. left. done.
Qed.

Lemma collect_go_not_excluded fs rels out f :
  In f (collect_go include_ext include_names exclude_dirs fs rels out) ->
  In f out \/ existsb (fun part => mem part exclude_dirs) (dir_parts (fd_path f)) = false.
Proof.
  revert out. induction rels as [|rel rels IH]; intros out H; cbn [collect_go] in H; [tauto|].
  destruct (existsb (fun part => mem part exclude_dirs) (dir_parts rel)) eqn:Hx;
    [apply IH; done|].
  destruct (fs rel) as [bytes|]; [|apply IH; done].
  destruct (negb _); [apply IH; done|].
  destruct (MAX_BYTES_PER_FILE <? _)%N; [apply IH; done|].
  assert (Hnew : forall g, In g (out ++ [mk_file (basename rel) rel bytes]) ->
                 In g out \/ existsb (fun part => mem part exclude_dirs) (dir_parts (fd_path g)) = false).
  { intros g Hg. apply in_app_or in Hg as [Hg|[<-|[]]]; [tauto|right; done]. }
  destruct (MAX_FILES_PER_BATCH <=? length _)%nat.
  - apply Hnew; done.
  - apply IH in H as [H|H]; [apply Hnew; done|tauto].
Qed.

Lemma collect_not_excluded fs paths f :
  In f (collect fs paths) ->
  forall d, In d (dir_parts (fd_path f)) -> mem d exclude_dirs = false.
Proof.
  intros H d Hd. apply collect_go_not_excluded in H as [[]|H].
  destruct (mem d exclude_dirs) eqn:Hm; [|done].
  assert (existsb (fun part => mem part exclude_dirs) (dir_parts (fd_path f)) = true)
    by (apply existsb_exists; eauto).
  congruence.
Qed.

(** *** Sessions *)

Abbreviation run_s :=
  (run digest DEBOUNCE_SECONDS INPUT_DEDUPE_TTL FILE_COOLDOWN_SEC
     include_ext include_names exclude_dirs root).
Abbreviation hq := (h_q include_ext include_names root).

Lemma run_app st l1 l2 :
  run_s st (l1 ++ l2) =
  let '(s1, o1) := run_s st l1 in
  let '(s2, o2) := run_s s1 l2 in (s2, o1 ++ o2).
Proof.
  revert st. induction l1 as [|a l1 IH]; intros st; cbn [run app].
  - destruct (run_s st l2); reflexivity.
  - destruct a as [t e c|t env].
    + apply IH.
    + destruct (maybe_send t env st) as [s1 o]. rewrite IH.
      destruct (run_s s1 l1) as [s2 o2]. destruct (run_s s2 l2). reflexivity.
Qed.

Lemma materializations_none outs :
  Forall (fun to => materialized to.2 = false) outs -> materializations outs = 0%nat.
Proof.
  unfold materializations. induction 1 as [|[t o] outs Ho _ IH]; [done|].
  simpl in *. rewrite Ho. done.
Qed.

Lemma run_ticks_idle st post :
  only_ticks post -> pending_paths st = [] ->
  Forall (fun to => materialized to.2 = false) (run_s st post).2.
Proof.
  intros Hpost. revert st. induction Hpost as [|a post Ha _ IH]; intros st Hp; [constructor|].
  destruct a as [t e c|t env]; [discriminate|].
  cbn [run]. rewrite maybe_send_quiet by (left; done).
  destruct (run_s st post) as [s2 os] eqn:E. simpl.
  constructor; [done|]. specialize (IH st Hp). rewrite E in IH. done.
Qed.

Lemma run_ticks_fire_once st post tl :
  only_ticks post -> pending_paths st <> [] -> last_event_ts st = tl ->
  (exists t env, In (ATick t env) post /\ tl + DEBOUNCE_SECONDS <= t) ->
  materializations (run_s st post).2 = 1%nat /\
  (forall t o, In (t, o) (run_s st post).2 -> materialized o = true ->
               tl + DEBOUNCE_SECONDS <= t).
Proof.
  intros Hpost. revert st. induction Hpost as [|a post Ha Hpost IH];
    intros st Hp Hl Hex.
  { destruct Hex as (? & ? & [] & _). }
  destruct a as [t e c|t env]; [discriminate|].
  cbn [run].
  destruct (Z_lt_ge_dec (t - tl) DEBOUNCE_SECONDS) as [Hlt|Hge].
  - rewrite maybe_send_quiet by (right; lia).
    destruct (run_s st post) as [s2 os] eqn:E.
    assert (Hex' : exists t' env', In (ATick t' env') post /\ tl + DEBOUNCE_SECONDS <= t').
    { destruct Hex as (t' & env' & [Heq|Hin] & Hle).
      - injection Heq as <- <-. lia.
      - eauto. }
    specialize (IH st Hp Hl Hex'). rewrite E in IH. destruct IH as [IH1 IH2].
    unfold materializations in *. simpl. split; [done|].
    intros t' o [Heq|Hin] Hm; [injection Heq as <- <-; discriminate|eauto].
  - destruct (maybe_send t env st) as [s1 o] eqn:Es.
    pose proof (maybe_send_fires t env st Hp ltac:(lia)) as Hm.
    rewrite Es in Hm. simpl in Hm.
    destruct (maybe_send_after _ _ _ _ _ Es) as (_ & _ & Hafter).
    destruct (Hafter Hm) as (Hs1 & _ & _).
    pose proof (run_ticks_idle s1 post Hpost Hs1) as Hidle.
    destruct (run_s s1 post) as [s2 os] eqn:E. simpl in Hidle |- *.
    split.
    + unfold materializations. simpl. rewrite Hm.
      pose proof (materializations_none os Hidle) as H0.
      unfold materializations in H0. simpl. rewrite H0. done.
    + intros t' o' [Heq|Hin] Hm'.
      * injection Heq as <- <-. lia.
      * rewrite List.Forall_forall in Hidle. specialize (Hidle _ Hin). simpl in Hidle. congruence.
Qed.

(** A tick is never later than the next event. *)
Lemma quick_events_tick_gap l t rest :
  quick_events DEBOUNCE_SECONDS (Some l) rest ->
  Forall (fun a => t <= act_time a) rest ->
  (exists a, In a rest /\ is_event a = true) ->
  t - l < DEBOUNCE_SECONDS.
Proof.
  induction rest as [|a rest IH]; intros Hq Hle Hex.
  - destruct Hex as (? & [] & _).
  - inversion Hle as [|? ? Ha Hrest]; subst.
    destruct a as [tn e c|tn env]; simpl in Hq, Ha.
    + destruct Hq as [Hg _]. lia.
    + apply IH; [done|done|].
      destruct Hex as (a & [<-|Hin] & Hev); [discriminate|eauto].
Qed.

Lemma set_add_single r s : s = [] \/ s = [r] -> set_add r s = [r].
Proof.
  intros [->| ->]; unfold set_add; simpl; [done|].
  rewrite String.eqb_refl. done.
Qed.

Lemma hq_modify_state now e r st :
  event_rel include_ext include_names root e = Some r ->
  (pending_paths st = [] \/ pending_paths st = [r]) ->
  pending_paths (hq now e false st) = [r] /\ last_event_ts (hq now e false st) = now.
Proof.
  intros Hr Hp. unfold h_q. rewrite Hr. simpl. split; [apply set_add_single; done|done].
Qed.

Lemma run_burst_prefix e r tl pre : forall st last,
  event_rel include_ext include_names root e = Some r ->
  only_modifies_of e pre ->
  StronglySorted (fun a b => act_time a <= act_time b) (pre ++ [AEvent tl e false]) ->
  quick_events DEBOUNCE_SECONDS last (pre ++ [AEvent tl e false]) ->
  (pending_paths st = [] /\ last = None \/
   pending_paths st = [r] /\ last = Some (last_event_ts st)) ->
  Forall (fun to => materialized to.2 = false) (run_s st pre).2 /\
  (pending_paths (run_s st pre).1 = [] \/ pending_paths (run_s st pre).1 = [r]).
Proof.
  induction pre as [|a pre IH]; intros st last Hr Hmod Hsort Hq Hinv.
  { simpl. split; [constructor|]. destruct Hinv as [[-> _]|[-> _]]; tauto. }
  inversion Hmod as [|? ? Ha Hmod']; subst.
  apply StronglySorted_inv in Hsort as [Hsort Hhd].
  destruct a as [t e' c|t env].
  - destruct Ha as [-> ->]. cbn [run].
    destruct Hq as [_ Hq].
    destruct (hq_modify_state t e r st Hr) as [Hp1 Hl1];
      [destruct Hinv as [[? _]|[? _]]; tauto|].
    apply (IH _ (Some t)); try done. right. rewrite Hl1. done.
  - cbn [run]. simpl in Hq.
    assert (Hidle : maybe_send t env st = (st, TIdle)).
    { apply maybe_send_quiet. destruct Hinv as [[Hp _]|[Hp ->]]; [left; done|right].
      eapply quick_events_tick_gap; [exact Hq|exact Hhd|].
      exists (AEvent tl e false). split; [apply in_or_app; right; left; done|done]. }
    rewrite Hidle.
    destruct (IH st last Hr Hmod' Hsort Hq Hinv) as [H1 H2].
    destruct (run_s st pre) as [s2 os]. simpl in *.
    split; [constructor; done|done].
Qed.

Lemma in_select_created now ln seen pc files c :
  In c (select now ln seen pc files).2 ->
  In c pc /\ default false (seen !! c) = false /\
  exists f, In f (select now ln seen pc files).1 /\ fd_path f = c.
Proof.
  induction files as [|g rest IH]; simpl; [tauto|].
  destruct (select now ln seen pc rest) as [ts cs] eqn:E. simpl in IH.
  destruct (cooldown_hit FILE_COOLDOWN_SEC now ln (fd_path g) (digest (fd_content g)));
    simpl; [exact IH|].
  destruct (mem (fd_path g) pc && negb (default false (seen !! fd_path g))) eqn:Hc.
  - intros [<-|Hin].
    + apply andb_true_iff in Hc as [Hm Hs]. apply negb_true_iff in Hs.
      apply existsb_exists in Hm as (y & Hy & Hxy). apply String.eqb_eq in Hxy.
      rewrite <- Hxy in Hy. split; [done|]. split; [done|]. exists g. simpl. tauto.
    + destruct (IH Hin) as (H1 & H2 & f & Hf & Hp). simpl. eauto 6.
  - intros Hin. destruct (IH Hin) as (H1 & H2 & f & Hf & Hp). simpl. eauto 6.
Qed.

(** *** Claims *)

(** C1 (as amended). In a tick that gets past the debounce test, the
    scheduler materialises all pending paths together and dispatches
    at most one batch: every file that survives the cooldown filter,
    created and modified alike. Its reason is [created] exactly when
    some included path was pending as created and not yet marked seen
    (these are its [created_paths]), [modified] otherwise. Both pending
    sets are empty after the tick: nothing is deferred. *)
Theorem maybe_send_one_combined_batch now env st st' o
    (Hs : maybe_send now env st = (st', o))
    (Hm : materialized o = true) :
  pending_paths st' = [] /\ pending_created st' = [] /\
  forall reason files created bid ok,
    o = TPosted reason files created bid ok ->
    let sel := select now (last_notify st) (file_seen st) (pending_created st)
                 (collect (te_fs_read env) (pending_paths st)) in
    files = sel.1 /\ created = sel.2 /\
    reason = (match created with [] => "modified" | _ => "created" end) /\
    (forall c, In c created ->
       In c (pending_created st) /\ default false (file_seen st !! c) = false /\
       exists f, In f files /\ fd_path f = c).
Proof.
  destruct (maybe_send_after _ _ _ _ _ Hs) as (_ & _ & Hafter).
  destruct (Hafter Hm) as (Hp & Hc & Hpost).
  split; [done|]. split; [done|].
  intros reason files created bid ok Ho sel.
  destruct (Hpost _ _ _ _ _ Ho) as [Hsel Hr].
  subst sel. rewrite Hsel. simpl.
  split; [done|]. split; [done|]. split; [done|].
  intros c Hin. pose proof (in_select_created now (last_notify st) (file_seen st)
    (pending_created st) (collect (te_fs_read env) (pending_paths st)) c) as H.
  rewrite Hsel in H. simpl in H. apply H. done.
Qed.

(** C4. A tick materialises nothing while the pending set is non-empty
    and [now - last_event_ts < DEBOUNCE_SECONDS]; every accepted event
    resets [last_event_ts]. Hence a burst of modify events on one path,
    each less than [DEBOUNCE_SECONDS] after the previous one, with
    ticks interleaved anywhere, followed by ticks only, materialises
    exactly one batch, at a tick at least [DEBOUNCE_SECONDS] after the
    last event (provided such a tick comes). *)
Theorem debounce_burst_materializes_once st0 e r pre tl post
    (Hr : event_rel include_ext include_names root e = Some r)
    (H0 : pending_paths st0 = [])
    (Hmod : only_modifies_of e pre)
    (Hchrono : chronological (pre ++ [AEvent tl e false]))
    (Hquick : quick_events DEBOUNCE_SECONDS None (pre ++ [AEvent tl e false]))
    (Hpost : only_ticks post)
    (Hquiet : exists t env, In (ATick t env) post /\ tl + DEBOUNCE_SECONDS <= t) :
  (forall now env st, pending_paths st <> [] ->
     now - last_event_ts st < DEBOUNCE_SECONDS ->
     maybe_send now env st = (st, TIdle)) /\
  materializations (run_s st0 (pre ++ AEvent tl e false :: post)).2 = 1%nat /\
  (forall t o, In (t, o) (run_s st0 (pre ++ AEvent tl e false :: post)).2 ->
     materialized o = true -> tl + DEBOUNCE_SECONDS <= t).
Proof.
  split. { intros now env st _ Hlt. apply maybe_send_quiet. right. done. }
  unfold chronological in Hchrono.
  apply Sorted_StronglySorted in Hchrono; [|intros x y z Hxy Hyz; lia].
  destruct (run_burst_prefix e r tl pre st0 None Hr Hmod Hchrono Hquick
              (or_introl (conj H0 eq_refl))) as [Hpre Hp1].
  rewrite run_app. destruct (run_s st0 pre) as [s1 o1] eqn:E1. simpl in Hpre, Hp1.
  cbn [run].
  destruct (hq_modify_state tl e r s1 Hr Hp1) as [Hp2 Hl2].
  assert (Hne : pending_paths (hq tl e false s1) <> []) by (rewrite Hp2; discriminate).
  destruct (run_ticks_fire_once (hq tl e false s1) post tl Hpost Hne Hl2 Hquiet)
    as [Hc Ht].
  destruct (run_s (hq tl e false s1) post) as [s3 o3] eqn:E3. simpl in *.
  pose proof (materializations_none o1 Hpre) as Hz.
  split.
  - unfold materializations in *. rewrite List.filter_app, length_app, Hz, Hc. done.
  - intros t o Hin Hm. apply in_app_or in Hin as [Hin|Hin]; [|eauto].
    rewrite List.Forall_forall in Hpre. specialize (Hpre _ Hin). simpl in Hpre. congruence.
Qed.

(** C5. During materialisation a candidate file with current content
    digest [d] is left out of the batch if and only if [last_notify]
    holds an entry for its path with digest [d] sent less than
    [FILE_COOLDOWN_SEC] seconds ago; the batch [_maybe_send] posts is
    exactly the filtered list. *)
Theorem cooldown_excludes_iff now ln seen pc files f (Hin : In f files) :
  (~ In f (select_files digest FILE_COOLDOWN_SEC now ln seen pc files).1 <->
   exists e, ln !! fd_path f = Some e /\ ln_digest e = digest (fd_content f) /\
             now - ln_ts e < FILE_COOLDOWN_SEC) /\
  (forall env st st' reason fs created bid ok,
     maybe_send now env st = (st', TPosted reason fs created bid ok) ->
     fs = (select now (last_notify st) (file_seen st) (pending_created st)
             (collect (te_fs_read env) (pending_paths st))).1).
Proof.
  split.
  - rewrite in_select, <- cooldown_hit_true.
    destruct (cooldown_hit FILE_COOLDOWN_SEC now ln (fd_path f) (digest (fd_content f)));
      split; intros H.
    + done.
    + intros [_ Hf]. discriminate.
    + exfalso. apply H. done.
    + discriminate.
  - intros env st st' reason fs created bid ok Hs.
    destruct (maybe_send_after _ _ _ _ _ Hs) as (_ & _ & Hafter).
    destruct (Hafter eq_refl) as (_ & _ & Hpost).
    destruct (Hpost _ _ _ _ _ eq_refl) as [Hsel _]. rewrite Hsel. done.
Qed.

(** C8 (as amended). [H._q] drops directories, basenames out of scope
    and paths outside the root, and nothing else: it does not test
    excluded-directory segments, so an event under an excluded
    directory is queued in the pending set and resets the debounce
    clock. The exclusion is applied at materialisation time by
    [_collect_specific], which never returns a file with an excluded
    directory segment. *)
Theorem excluded_dirs_filtered_at_materialisation :
  (forall e, event_rel include_ext include_names root e <> None <->
     ev_is_directory e = false /\
     _in_scope include_ext include_names (List.last (ev_src_path e) EmptyString) = true /\
     strip_prefix root (ev_src_path e) <> None) /\
  (forall now e created st rel,
     event_rel include_ext include_names root e = Some rel ->
     In rel (pending_paths (hq now e created st)) /\
     last_event_ts (hq now e created st) = now) /\
  (forall fs paths f, In f (collect fs paths) ->
     forall d, In d (dir_parts (fd_path f)) -> mem d exclude_dirs = false).
Proof.
  split; [|split].
  - intros e. unfold event_rel.
    destruct (ev_is_directory e); [split; [done|intros [? _]; discriminate]|].
    destruct (_in_scope include_ext include_names (List.last (ev_src_path e) EmptyString));
      simpl; [|split; [done|intros (_ & ? & _); discriminate]].
    destruct (strip_prefix root (ev_src_path e)) as [[|s segs]|]; split; try done;
      intros (_ & _ & H); done.
  - intros now e created st rel Hr. unfold h_q. rewrite Hr. simpl.
    split; [apply set_add_in|done].
  - apply collect_not_excluded.
Qed.
End Facts.
End WatcherFacts.

(* ================================================================== *)
(** ** Concrete watcher sessions *)
Module WatcherCases.
Import Watcher WatcherFacts Scenarios.

(** C1: a created [a.yml] and a modified [b.yml] pending together do not
    lead to a batch of the created file with [b.yml] held back: one tick
    posts a single ["created"] batch holding both files and clears the
    pending sets. *)
Lemma created_file_not_sent_alone :
  match sample_send 12 sample_env created_and_modified with
  | (st', TPosted reason files created _ _) =>
      reason = "created" /\ files = [file_a; file_b] /\ created = ["a.yml"] /\
      pending_paths st' = [] /\ pending_created st' = []
  | _ => False
  end.
Proof. vm_compute. repeat split. Qed.

Lemma maybe_send_one_combined_batch_witness :
  materialized (snd (sample_send 12 sample_env created_and_modified)) = true /\
  pending_paths (fst (sample_send 12 sample_env created_and_modified)) = [] /\
  pending_created (fst (sample_send 12 sample_env created_and_modified)) = [].
Proof.
  assert (Hm : materialized (snd (sample_send 12 sample_env created_and_modified)) = true)
    by (vm_compute; reflexivity).
  destruct (maybe_send_one_combined_batch sample_digest 10 180 300
              INCLUDE_EXT_DEFAULT INCLUDE_NAMES_DEFAULT EXCLUDE_DIRS_DEFAULT
              12 sample_env created_and_modified
              (fst (sample_send 12 sample_env created_and_modified))
              (snd (sample_send 12 sample_env created_and_modified))
              ltac:(vm_compute; reflexivity) Hm) as (Hp & Hc & _).
  split; [exact Hm|]. split; [exact Hp|exact Hc].
Defined.

Lemma debounce_burst_materializes_once_witness :
  materializations
    (run sample_digest 10 180 300 INCLUDE_EXT_DEFAULT INCLUDE_NAMES_DEFAULT
       EXCLUDE_DIRS_DEFAULT sample_root empty_wstate
       (burst_pre ++ AEvent 6 touch_a false :: burst_post)).2 = 1%nat.
Proof.
  apply (debounce_burst_materializes_once sample_digest 10 180 300
           INCLUDE_EXT_DEFAULT INCLUDE_NAMES_DEFAULT EXCLUDE_DIRS_DEFAULT sample_root
           empty_wstate touch_a "a.yml" burst_pre 6 burst_post).
  - vm_compute. reflexivity.
  - reflexivity.
  - unfold only_modifies_of, burst_pre. repeat constructor.
  - unfold chronological, burst_pre. simpl.
    repeat (constructor || (simpl; lia)).
  - simpl. lia.
  - unfold only_ticks, burst_post. repeat constructor.
  - exists 16, sample_env. split; [|lia].
    unfold burst_post. simpl. right; right; left. reflexivity.
Defined.

Lemma cooldown_excludes_iff_witness :
  ~ In file_a (select_files sample_digest 300 20
                 {[ "a.yml" := mk_notify 5 "image: nginx:latest" ]} ∅ []
                 [file_a; file_b]).1.
Proof.
  apply (proj2 (proj1 (cooldown_excludes_iff sample_digest 10 180 300
           INCLUDE_EXT_DEFAULT INCLUDE_NAMES_DEFAULT EXCLUDE_DIRS_DEFAULT
           20 {[ "a.yml" := mk_notify 5 "image: nginx:latest" ]} ∅ []
           [file_a; file_b] file_a ltac:(simpl; left; reflexivity)))).
  exists (mk_notify 5 "image: nginx:latest").
  split; [vm_compute; reflexivity|]. split; [reflexivity|]. simpl. lia.
Defined.

(** C8: an event under the excluded directory [node_modules] is queued
    by the handler and resets the debounce clock; the file is dropped
    only when the pending set is materialised. *)
Lemma excluded_dir_event_queued :
  mem "node_modules" EXCLUDE_DIRS_DEFAULT = true /\
  pending_paths (sample_hq 5 vendored_event false empty_wstate) = ["node_modules/x/app.yaml"] /\
  last_event_ts (sample_hq 5 vendored_event false empty_wstate) = 5 /\
  snd (sample_send 20 (mk_tick_env fs_everything true)
         (sample_hq 5 vendored_event false empty_wstate)) = TNothingRead.
Proof. vm_compute. repeat split. Qed.

End WatcherCases.

(* ================================================================== *)
(** * Facts about the backend *)
Module BackendFacts.
Import Watcher Backend Notions.

(** *** Strings *)

Lemma str_app_nil_l x : EmptyString +:+ x = x.
Proof. reflexivity. Qed.

Lemma str_app_cons c x y : String c x +:+ y = String c (x +:+ y).
Proof. reflexivity. Qed.

Lemma str_app_assoc x y z : x +:+ (y +:+ z) = (x +:+ y) +:+ z.
Proof. induction x as [|c x IH]; [done|]. rewrite !str_app_cons, IH. done. Qed.




Lemma has_bar_app x y : has_bar (x +:+ y) = has_bar x || has_bar y.
Proof. induction x as [|c x IH]; [done|]. rewrite str_app_cons. simpl. rewrite IH. apply orb_assoc. Qed.


Lemma join_cons2 sep x y l : join sep (x :: y :: l) = x +:+ sep +:+ join sep (y :: l).
Proof. reflexivity. Qed.


Lemma join_bar_free l : Forall (fun s => has_bar s = false) l -> has_bar (join "|" l) = (2 <=? length l)%nat.
Proof.
  induction l as [|x [|y l] IH]; intros Hf; inversion Hf as [|? ? Hx Hl]; subst; [done|done|].
  rewrite join_cons2, has_bar_app, Hx. simpl. done.
Qed.


Lemma str_app_nil_r x : x +:+ EmptyString = x.
Proof. induction x as [|c x IH]; [done|]. rewrite str_app_cons, IH. done. Qed.



(** *** The order of [sorted] on strings *)

Lemma str_compare_refl a : String.compare a a = Eq.
Proof.
  induction a as [|c a IH]; [done|]. simpl.
  unfold Ascii.compare. rewrite N.compare_refl. done.
Qed.

Lemma slt_irrefl a : ~ slt a a.
Proof. unfold slt, String.ltb. rewrite str_compare_refl. done. Qed.

Lemma slt_asym a b : slt a b -> ~ slt b a.
Proof.
  unfold slt, String.ltb. rewrite (String.compare_antisym b a).
  destruct (String.compare a b); done.
Qed.

Lemma slt_trans a b c : slt a b -> slt b c -> slt a c.
Proof.
  intros Hab Hbc.
  assert (Hle : String.le a c).
  { transitivity b; unfold String.le, String.leb; unfold slt, String.ltb in *;
      [destruct (String.compare a b)|destruct (String.compare b c)]; done. }
  unfold String.le, String.leb in Hle. unfold slt, String.ltb.
  destruct (String.compare a c) eqn:E; try done.
  apply String.compare_eq_iff in E. subst. exfalso. by apply (slt_asym c b).
Qed.

Lemma slt_total a b : a <> b -> ~ slt a b -> slt b a.
Proof.
  unfold slt, String.ltb. intros Hne Hn. rewrite (String.compare_antisym b a).
  destruct (String.compare a b) eqn:E; try done.
  apply String.compare_eq_iff in E. done.
Qed.

(** *** Python's stable [sorted(..., key=...)] *)

Section SortFacts.
Context {A : Type} (key : A -> string).

Abbreviation ins := (fun acc x => insert_by key x acc).
Abbreviation ksorted := (ksorted key).

Lemma insert_by_perm x l : Permutation (insert_by key x l) (x :: l).
Proof.
  induction l as [|y l IH]; simpl; [done|].
  destruct (String.ltb (key x) (key y)); [done|].
  rewrite IH. constructor.
Qed.

Lemma fold_ins_perm l acc : Permutation (fold_left ins l acc) (l ++ acc).
Proof.
  revert acc. induction l as [|x l IH]; intros acc; simpl; [done|].
  rewrite IH, insert_by_perm. symmetry. apply Permutation_middle.
Qed.

Lemma sort_by_perm l : Permutation (sort_by key l) l.
Proof. unfold sort_by. rewrite fold_ins_perm, app_nil_r. done. Qed.

Lemma insert_by_sorted x l :
  ksorted l -> Forall (fun y => key y <> key x) l -> ksorted (insert_by key x l).
Proof.
  induction l as [|y l IH]; intros Hs Hn; simpl.
  - constructor; [constructor|constructor].
  - inversion Hs as [|? ? Hs' Hy]; subst. inversion Hn as [|? ? Hyx Hn']; subst.
    destruct (String.ltb (key x) (key y)) eqn:Hxy.
    + constructor; [exact Hs|]. constructor; [exact Hxy|].
      eapply Forall_impl; [exact Hy|]. intros z Hz. by apply slt_trans with (key y).
    + assert (Hyx' : slt (key y) (key x)).
      { apply slt_total; [congruence|]. unfold slt. rewrite Hxy. done. }
      constructor; [by apply IH|].
      apply List.Forall_forall. intros z Hz.
      apply (Permutation_in _ (insert_by_perm x l)) in Hz as [<-|Hz]; [done|].
      rewrite List.Forall_forall in Hy. by apply Hy.
Qed.

Lemma fold_ins_sorted l acc :
  ksorted acc -> List.NoDup (map key (l ++ acc)) -> ksorted (fold_left ins l acc).
Proof.
  revert acc. induction l as [|x l IH]; intros acc Hs Hnd; simpl; [done|].
  simpl in Hnd. apply NoDup_cons_iff in Hnd as [Hx Hnd].
  apply IH.
  - apply insert_by_sorted; [done|]. apply List.Forall_forall. intros y Hy Hk.
    apply Hx. rewrite map_app. apply in_or_app. right. rewrite <- Hk. by apply in_map.
  - apply (Permutation_NoDup (l := map key (x :: l ++ acc))).
    + apply Permutation_map. rewrite insert_by_perm. apply Permutation_middle.
    + simpl. by apply List.NoDup_cons.
Qed.

Lemma sort_by_sorted l : List.NoDup (map key l) -> ksorted (sort_by key l).
Proof. intros H. apply fold_ins_sorted; [constructor|]. by rewrite app_nil_r. Qed.






End SortFacts.

(** *** Fingerprints *)

Section FingerprintFacts.
Variable digest : string -> string.

Abbreviation fp := (_batch_fingerprint digest).

Lemma sort_strings_perm l : Permutation (sort_strings l) l.
Proof. apply sort_by_perm. Qed.






End FingerprintFacts.

Section FingerprintClaims.
Variable digest : string -> string.
Hypothesis digest_inj : forall x y, digest x = digest y -> x = y.

Abbreviation fp := (_batch_fingerprint digest).


Lemma str_head_neq c d x y : c <> d -> String c x <> String d y.
Proof. intros Hcd H. injection H as ->. done. Qed.

(** C2 (as amended). The client's [_batch_id] and the server's
    [_batch_fingerprint] are digests of different preimages: the
    client's is [reason|parts], the server's [repo_id|reason|created...|parts]
    with the [repo_id] the client never sends, read as empty. For an
    injective digest they never agree on a batch the client posts, for
    each of the client's reasons [created], [modified] and [initial]. *)
Theorem client_server_fingerprints_differ email files reason created
    (Hreason : reason = "created" \/ reason = "modified" \/ reason = "initial") :
  _batch_id digest files reason <>
  fp (Wire.post_payload email files reason created (_batch_id digest files reason)).
Proof.
  intros H. apply digest_inj in H.
  unfold batch_id_seed, fingerprint_seed, fingerprint_parts, Wire.post_payload in H.
  cbn [pl_repo_id pl_notify_reason pl_created_paths pl_files] in H.
  change ([EmptyString; reason] ++ ?l) with (EmptyString :: reason :: l) in H.
  rewrite join_cons2 in H.
  destruct Hreason as [ -> | [ -> | -> ] ]; revert H; apply str_head_neq; done.
Qed.
End FingerprintClaims.

(** *** Serving a request *)

Section ServerFacts.
Variable digest : string -> string.
Variables BATCH_TTL EMAIL_MIN_INTERVAL : Z.
Variable ALLOW_MULTI_MOD_EMAILS : bool.
Variable llm : list message -> option string.
Variable smtp : string -> string -> string -> bool.

Abbreviation fp := (_batch_fingerprint digest).
Abbreviation dedup := (dedup_phase digest BATCH_TTL).
Abbreviation analyze :=
  (analyze_batch digest BATCH_TTL EMAIL_MIN_INTERVAL ALLOW_MULTI_MOD_EMAILS llm smtp).
Abbreviation scan := (scan_files llm).
Abbreviation scanp := (scan_phase digest EMAIL_MIN_INTERVAL ALLOW_MULTI_MOD_EMAILS llm smtp).
Abbreviation notify := (notify_phase digest EMAIL_MIN_INTERVAL smtp).

Lemma dedup_fresh now p st : (dedup now p st).2 = None ->
  dedup now p st =
  (mk_sstate (<[fp p := now]> (prune BATCH_TTL now (recent_batch st))) (email_state st), None).
Proof. unfold dedup_phase. destruct (prune BATCH_TTL now (recent_batch st) !! fp p); done. Qed.

Lemma dedup_fresh_records now p st : (dedup now p st).2 = None ->
  recent_batch (dedup now p st).1 !! fp p = Some now /\
  email_state (dedup now p st).1 = email_state st.
Proof. intros H. rewrite (dedup_fresh _ _ _ H). simpl. split; [by simplify_map_eq|done]. Qed.

Lemma analyze_fresh now nm iso p st : (dedup now p st).2 = None ->
  analyze now nm iso p st = scanp nm iso (fp p) p (dedup now p st).1.
Proof. intros H. unfold analyze_batch. rewrite (dedup_fresh _ _ _ H). done. Qed.

Lemma analyze_dedup t2 nm iso p st2 t1 :
  recent_batch st2 !! fp p = Some t1 -> t2 - t1 <= BATCH_TTL ->
  analyze t2 nm iso p st2 =
  (mk_sstate (prune BATCH_TTL t2 (recent_batch st2)) (email_state st2), [], dedup_response p).
Proof.
  intros H Ht. unfold analyze_batch, dedup_phase.
  assert (prune BATCH_TTL t2 (recent_batch st2) !! fp p = Some t1) as ->.
  { unfold prune. apply map_lookup_filter_Some. split; [done|]. simpl. by apply Z.leb_le. }
  done.
Qed.

Lemma notify_rb nm iso email reason created results total st :
  recent_batch (notify nm iso email reason created results total st).1.1 = recent_batch st.
Proof.
  unfold notify_phase, _should_send.
  repeat case_match; simplify_eq/=; done.
Qed.

Lemma scan_effects files results total :
  Forall (fun e => exists n, e = EAnalyze n) (scan files results total).2.
Proof.
  revert results total. induction files as [|f files IH]; intros results total; simpl; [done|].
  destruct (scan files _ _) as [[r t] effs] eqn:E. simpl. constructor; [eauto|].
  specialize (IH (dict_set (scan_name f)
    (ai_scan llm (guess_domain (scan_name f) (fd_content f)) (scan_name f) (fd_content f))
    results) (total + length (ai_scan llm (guess_domain (scan_name f) (fd_content f))
    (scan_name f) (fd_content f)))%nat).
  rewrite E in IH. done.
Qed.

Lemma no_email_in_scan files results total to sj bd :
  ~ In (EEmail to sj bd) (scan files results total).2.
Proof.
  intros Hin. pose proof (scan_effects files results total) as H.
  rewrite List.Forall_forall in H. destruct (H _ Hin) as [n Hn]. discriminate.
Qed.

Lemma scan_phase_rb nm iso fp' p st :
  recent_batch (scanp nm iso fp' p st).1.1 = recent_batch st /\
  r_deduped (scanp nm iso fp' p st).2 = false.
Proof.
  unfold scan_phase. case_match; [done|].
  destruct (scan (pl_files p) [] 0) as [[results total] effs] eqn:E.
  destruct (notify nm iso _ _ _ results total st) as [[st' effs'] sent] eqn:En.
  pose proof (notify_rb nm iso (strip (pl_email p)) (handler_reason p) (pl_created_paths p)
                results total st) as Hrb.
  rewrite En in Hrb. done.
Qed.

Lemma ai_scan_failure dom fn c : llm (scan_messages dom fn c) = None -> ai_scan llm dom fn c = [].
Proof. unfold ai_scan. intros ->. done. Qed.

Lemma scan_files_fail files results total :
  Forall (fun f => llm (scan_messages (guess_domain (scan_name f) (fd_content f))
                         (scan_name f) (fd_content f)) = None) files ->
  (scan files results total).1.2 = total.
Proof.
  revert results total. induction files as [|f files IH]; intros results total Hf; simpl; [done|].
  inversion Hf as [|? ? Hff Hfs]; subst.
  rewrite (ai_scan_failure _ _ _ Hff). simpl.
  destruct (scan files _ _) as [[r t] effs] eqn:E. simpl.
  specialize (IH (dict_set (scan_name f) [] results) (total + 0)%nat Hfs).
  rewrite E in IH. simpl in IH. lia.
Qed.

Lemma notify_zero nm iso email reason created results st :
  notify nm iso email reason created results 0 st = (st, [], false).
Proof. unfold notify_phase. rewrite andb_false_r. done. Qed.

Lemma analyze_fresh_records now nm iso p st : (dedup now p st).2 = None ->
  recent_batch (analyze now nm iso p st).1.1 !! fp p = Some now.
Proof.
  intros H. destruct (dedup_fresh_records _ _ _ H) as [Hrec _].
  rewrite (analyze_fresh _ _ _ _ _ H).
  destruct (scan_phase_rb nm iso (fp p) p (dedup now p st).1) as [Hrb _].
  by rewrite Hrb.
Qed.

(** C3. A request whose fingerprint is not cached records it, with the
    request time, before the multi-file guard and before any analysis;
    the rest of the request never removes it. Any later request with
    the same payload, arriving less than [BATCH_TTL] seconds after the
    first one against any server state that still holds the record
    (while the first is being analysed, or after it answered), is
    answered with [deduped: True], makes no [ai_scan] call and sends no
    e-mail. Answers of requests that go through carry [deduped] false. *)
Theorem resubmission_within_ttl_deduplicated t1 nm1 iso1 p st
    (Hfresh : (dedup t1 p st).2 = None) :
  recent_batch (dedup t1 p st).1 !! fp p = Some t1 /\
  recent_batch (analyze t1 nm1 iso1 p st).1.1 !! fp p = Some t1 /\
  r_deduped (analyze t1 nm1 iso1 p st).2 = false /\
  (forall st2 t2 nm2 iso2,
     recent_batch st2 !! fp p = Some t1 -> t2 - t1 < BATCH_TTL ->
     (analyze t2 nm2 iso2 p st2).1.2 = [] /\
     (analyze t2 nm2 iso2 p st2).2 = dedup_response p /\
     r_deduped (dedup_response p) = true).
Proof.
  destruct (dedup_fresh_records _ _ _ Hfresh) as [Hrec _].
  rewrite (analyze_fresh _ _ _ _ _ Hfresh).
  destruct (scan_phase_rb nm1 iso1 (fp p) p (dedup t1 p st).1) as [Hrb Hd].
  split; [done|]. split; [by rewrite Hrb|]. split; [done|].
  intros st2 t2 nm2 iso2 H2 Ht. rewrite (analyze_dedup t2 nm2 iso2 p st2 t1 H2) by lia.
  done.
Qed.

(** C9. When the LLM call raises, [ai_scan] returns no issue for the
    file. A request that is not a duplicate and whose every LLM call
    raises is answered with [issues_found] 0, [email_sent] false and
    [deduped] false, no e-mail is sent, and its fingerprint stays
    recorded: the same payload resubmitted less than [BATCH_TTL]
    seconds later is deduplicated, not analysed again. *)
Theorem llm_failure_reads_as_no_issues now nm iso p st
    (Hfail : Forall (fun f => llm (scan_messages (guess_domain (scan_name f) (fd_content f))
                                     (scan_name f) (fd_content f)) = None) (pl_files p))
    (Hfresh : (dedup now p st).2 = None) :
  (forall dom fn c, llm (scan_messages dom fn c) = None -> ai_scan llm dom fn c = []) /\
  r_issues_found (analyze now nm iso p st).2 = 0%nat /\
  r_email_sent (analyze now nm iso p st).2 = false /\
  r_deduped (analyze now nm iso p st).2 = false /\
  (forall to sj bd, ~ In (EEmail to sj bd) (analyze now nm iso p st).1.2) /\
  (forall t2 nm2 iso2, t2 - now < BATCH_TTL ->
     (analyze t2 nm2 iso2 p (analyze now nm iso p st).1.1).1.2 = [] /\
     r_deduped (analyze t2 nm2 iso2 p (analyze now nm iso p st).1.1).2 = true).
Proof.
  split; [exact ai_scan_failure|].
  assert (Hlater : forall t2 nm2 iso2, t2 - now < BATCH_TTL ->
     (analyze t2 nm2 iso2 p (analyze now nm iso p st).1.1).1.2 = [] /\
     r_deduped (analyze t2 nm2 iso2 p (analyze now nm iso p st).1.1).2 = true).
  { intros t2 nm2 iso2 Ht.
    rewrite (analyze_dedup t2 nm2 iso2 p _ now (analyze_fresh_records now nm iso p st Hfresh))
      by lia.
    done. }
  split; [|split; [|split; [|split]]]; try exact Hlater;
    rewrite (analyze_fresh _ _ _ _ _ Hfresh); unfold scan_phase; case_match;
    try (simpl; try done; intros to sj bd []).
  all: pose proof (scan_files_fail (pl_files p) [] 0 Hfail) as Htot;
    pose proof (no_email_in_scan (pl_files p) [] 0) as Hno;
    destruct (scan (pl_files p) [] 0) as [[results total] effs] eqn:E;
    simpl in Htot; subst total; rewrite notify_zero; simpl; try done.
  rewrite app_nil_r. done.
Qed.

(** C10. Unless [ALLOW_MULTI_MOD_EMAILS] is set, a request that is not
    a duplicate, with reason [modified], no created paths and more than
    one file, is answered with [suppressed: "multi-file-modified"],
    [issues_found] 0 and [email_sent] false, with no [ai_scan] call and
    no e-mail; its fingerprint is recorded all the same, so the same
    payload within [BATCH_TTL] seconds is answered as a duplicate. *)
Theorem multi_file_modified_suppressed now nm iso p st
    (Hallow : ALLOW_MULTI_MOD_EMAILS = false)
    (Hreason : pl_notify_reason p = "modified")
    (Hcreated : pl_created_paths p = [])
    (Hmany : (1 < length (pl_files p))%nat)
    (Hfresh : (dedup now p st).2 = None) :
  analyze now nm iso p st = ((dedup now p st).1, [], suppressed_response p) /\
  r_suppressed (suppressed_response p) = Some "multi-file-modified" /\
  r_issues_found (suppressed_response p) = 0%nat /\
  r_email_sent (suppressed_response p) = false /\
  recent_batch (dedup now p st).1 !! fp p = Some now /\
  (forall t2 nm2 iso2, t2 - now < BATCH_TTL ->
     (analyze t2 nm2 iso2 p (dedup now p st).1).1.2 = [] /\
     r_deduped (analyze t2 nm2 iso2 p (dedup now p st).1).2 = true).
Proof.
  destruct (dedup_fresh_records _ _ _ Hfresh) as [Hrec _].
  assert (Ha : analyze now nm iso p st = ((dedup now p st).1, [], suppressed_response p)).
  { rewrite (analyze_fresh _ _ _ _ _ Hfresh). unfold scan_phase, handler_reason.
    rewrite Hallow, Hreason, Hcreated.
    replace (1 <? length (pl_files p))%nat with true by (symmetry; apply Nat.ltb_lt; done).
    reflexivity. }
  split; [done|]. split; [done|]. split; [done|]. split; [done|]. split; [done|].
  intros t2 nm2 iso2 Ht. rewrite (analyze_dedup t2 nm2 iso2 p _ now Hrec) by lia. done.
Qed.

(** C7 (as amended). Once a request is past the duplicate test and the
    multi-file guard, has a non-empty [email] and finds at least one
    issue, its results are returned, and no e-mail is sent if and only
    if [EMAIL_STATE] holds, for that address, the digest of the e-mail
    BODY (the subject is not digested) with a timestamp less than
    [EMAIL_MIN_INTERVAL] seconds old. *)
Theorem email_withheld_iff_same_body now nm iso p st
    (Hfresh : (dedup now p st).2 = None)
    (Hguard : ~ (ALLOW_MULTI_MOD_EMAILS = false /\ handler_reason p = "modified" /\
                 pl_created_paths p = [] /\ (1 < length (pl_files p))%nat))
    (Hemail : strip (pl_email p) <> EmptyString)
    (Htotal : (0 < (scan (pl_files p) [] 0).1.2)%nat) :
  r_results (analyze now nm iso p st).2 = Some (scan (pl_files p) [] 0).1.1 /\
  r_issues_found (analyze now nm iso p st).2 = (scan (pl_files p) [] 0).1.2 /\
  ((forall to sj bd, ~ In (EEmail to sj bd) (analyze now nm iso p st).1.2) <->
   exists e, email_state st !! strip (pl_email p) = Some e /\
     es_digest e = digest (_format_email (strip (pl_email p)) (handler_reason p)
                             (pl_created_paths p) (scan (pl_files p) [] 0).1.1 iso).2 /\
     nm - es_ts e < EMAIL_MIN_INTERVAL).
Proof.
  destruct (dedup_fresh_records _ _ _ Hfresh) as [_ Hem].
  rewrite (analyze_fresh _ _ _ _ _ Hfresh). unfold scan_phase.
  destruct (negb ALLOW_MULTI_MOD_EMAILS && String.eqb (handler_reason p) "modified"
            && bool_decide (pl_created_paths p = []) && (1 <? length (pl_files p))%nat) eqn:G.
  { exfalso. apply Hguard.
    apply andb_true_iff in G as [G G4]. apply andb_true_iff in G as [G G3].
    apply andb_true_iff in G as [G1 G2].
    apply negb_true_iff in G1. apply String.eqb_eq in G2.
    apply bool_decide_eq_true in G3. apply Nat.ltb_lt in G4. done. }
  pose proof (no_email_in_scan (pl_files p) [] 0) as Hno.
  destruct (scan (pl_files p) [] 0) as [[results total] effs] eqn:E. simpl in Htotal |- *.
  unfold notify_phase.
  assert (negb (String.eqb (strip (pl_email p)) EmptyString) && (0 <? total)%nat = true) as ->.
  { apply andb_true_iff. split; [apply negb_true_iff, String.eqb_neq; done|by apply Nat.ltb_lt]. }
  destruct (_format_email (strip (pl_email p)) (handler_reason p) (pl_created_paths p)
              results iso) as [subject body] eqn:Ef. simpl.
  unfold _should_send. rewrite Hem.
  destruct (email_state st !! strip (pl_email p)) as [e|] eqn:Es.
  - destruct (String.eqb (es_digest e) (digest body) && (nm - es_ts e <? EMAIL_MIN_INTERVAL))
      eqn:Hw; simpl.
    + apply andb_true_iff in Hw as [Hd Ht]. apply String.eqb_eq in Hd. apply Z.ltb_lt in Ht.
      split; [done|]. split; [done|]. split.
      * intros _. exists e. done.
      * intros _ to sj bd. rewrite app_nil_r. apply Hno.
    + split; [done|]. split; [done|]. split.
      * intros H. exfalso. apply (H (strip (pl_email p)) subject body).
        apply in_or_app. right. left. done.
      * intros (e' & He' & Hd & Ht). injection He' as <-.
        rewrite Hd, String.eqb_refl in Hw. simpl in Hw. apply Z.ltb_ge in Hw. lia.
  - simpl. split; [done|]. split; [done|]. split.
    + intros H. exfalso. apply (H (strip (pl_email p)) subject body).
      apply in_or_app. right. left. done.
    + intros (e' & He' & _). done.
Qed.
End ServerFacts.
End BackendFacts.

(* ================================================================== *)
(** ** Concrete requests *)
Module BackendCases.
Import Watcher Backend Notions BackendFacts Scenarios.

Lemma sample_digest_inj x y : sample_digest x = sample_digest y -> x = y.
Proof. done. Qed.

(** C2: for a one-file [created] batch the client's [batch_id] and the
    server's fingerprint are digests of different strings. *)
Lemma client_and_server_ids_disagree :
  batch_id_seed sample_digest [file_a] "created" = "created|a.yml:image: nginx:latest" /\
  fingerprint_seed sample_digest
    (Wire.post_payload "dev@example.com" [file_a] "created" ["a.yml"]
       (_batch_id sample_digest [file_a] "created")) =
    "|created|a.yml|a.yml:image: nginx:latest" /\
  _batch_id sample_digest [file_a] "created" <>
  _batch_fingerprint sample_digest
    (Wire.post_payload "dev@example.com" [file_a] "created" ["a.yml"]
       (_batch_id sample_digest [file_a] "created")).
Proof. vm_compute. split; [reflexivity|]. split; [reflexivity|]. discriminate. Qed.

Lemma client_server_fingerprints_differ_witness :
  _batch_id sample_digest [file_a; file_b] "modified" <>
  _batch_fingerprint sample_digest
    (Wire.post_payload "dev@example.com" [file_a; file_b] "modified" []
       (_batch_id sample_digest [file_a; file_b] "modified")).
Proof.
  apply (client_server_fingerprints_differ sample_digest sample_digest_inj).
  right. left. reflexivity.
Defined.



Lemma resubmission_within_ttl_deduplicated_witness :
  (sample_analyze llm_flags 100 100 stamp (created_batch "a.yml")
     (sample_analyze llm_flags 0 0 stamp (created_batch "a.yml") empty_sstate).1.1).2 =
  dedup_response (created_batch "a.yml").
Proof.
  destruct (resubmission_within_ttl_deduplicated sample_digest 180 120 false llm_flags smtp_ok
              0 0 stamp (created_batch "a.yml") empty_sstate ltac:(vm_compute; reflexivity))
    as (_ & Hr & _ & Hl).
  apply (Hl _ 100 100 stamp Hr). lia.
Defined.

Lemma llm_failure_reads_as_no_issues_witness :
  r_issues_found (sample_analyze llm_down 0 0 stamp (created_batch "a.yml") empty_sstate).2 = 0%nat.
Proof.
  apply (llm_failure_reads_as_no_issues sample_digest 180 120 false llm_down smtp_ok
           0 0 stamp (created_batch "a.yml") empty_sstate).
  - repeat constructor.
  - vm_compute. reflexivity.
Defined.

Lemma multi_file_modified_suppressed_witness :
  r_suppressed (sample_analyze llm_flags 0 0 stamp multi_modified empty_sstate).2 =
  Some "multi-file-modified".
Proof.
  destruct (multi_file_modified_suppressed sample_digest 180 120 false llm_flags smtp_ok
              0 0 stamp multi_modified empty_sstate eq_refl eq_refl eq_refl
              ltac:(simpl; lia) ltac:(vm_compute; reflexivity)) as (Ha & Hs & _).
  unfold sample_analyze. rewrite Ha. exact Hs.
Defined.

(** C7: two [created] batches of the same file, announcing different
    created paths, yield e-mails with different subjects and the same
    body; the second e-mail is withheld while its results are returned. *)
Lemma email_withheld_despite_new_subject :
  let r1 := sample_analyze llm_flags 100 100 stamp (created_batch "x.yml") empty_sstate in
  let r2 := sample_analyze llm_flags 101 101 stamp (created_batch "y.yml") r1.1.1 in
  (exists sj bd, r1.1.2 = [EAnalyze "a.yml"; EEmail "dev@example.com" sj bd]) /\
  r2.1.2 = [EAnalyze "a.yml"] /\
  r_results r2.2 = Some [("a.yml", ["Runs as root"])] /\
  r_email_sent r2.2 = false /\
  (_format_email "dev@example.com" "created" ["x.yml"] [("a.yml", ["Runs as root"])] stamp).1 <>
  (_format_email "dev@example.com" "created" ["y.yml"] [("a.yml", ["Runs as root"])] stamp).1 /\
  (_format_email "dev@example.com" "created" ["x.yml"] [("a.yml", ["Runs as root"])] stamp).2 =
  (_format_email "dev@example.com" "created" ["y.yml"] [("a.yml", ["Runs as root"])] stamp).2.
Proof.
  vm_compute. split; [eexists; eexists; reflexivity|].
  split; [reflexivity|]. split; [reflexivity|]. split; [reflexivity|].
  split; [discriminate|reflexivity].
Qed.

Lemma email_withheld_iff_same_body_witness :
  r_results (sample_analyze llm_flags 101 101 stamp (created_batch "y.yml")
    (sample_analyze llm_flags 100 100 stamp (created_batch "x.yml") empty_sstate).1.1).2 =
  Some (scan_files llm_flags [file_a] [] 0).1.1.
Proof.
  apply (email_withheld_iff_same_body sample_digest 180 120 false llm_flags smtp_ok
           101 101 stamp (created_batch "y.yml")
           (sample_analyze llm_flags 100 100 stamp (created_batch "x.yml") empty_sstate).1.1).
  - vm_compute. reflexivity.
  - intros (_ & H & _). vm_compute in H. discriminate.
  - vm_compute. discriminate.
  - apply Nat.ltb_lt. vm_compute. reflexivity.
Defined.

End BackendCases.

(* ================================================================== *)
(** * Further properties of the backend *)
Module BackendExtra.
Import Watcher Backend Notions BackendFacts.

Lemma mem_In x l : mem x l = true <-> In x l.
Proof.
  unfold mem. rewrite existsb_exists. split.
  - intros (y & Hy & Hxy). apply String.eqb_eq in Hxy. subst. done.
  - intros H. exists x. split; [done|apply String.eqb_refl].
Qed.

(** *** [ai_scan]'s clean-up *)

Lemma dedupe_go_spec ws seen :
  List.NoDup (dedupe_go ws seen) /\
  forall w, In w (dedupe_go ws seen) -> In w ws /\ ~ In w seen /\ w <> EmptyString.
Proof.
  revert seen. induction ws as [|w ws IH]; intros seen; simpl.
  - split; [constructor|done].
  - destruct (negb (String.eqb w EmptyString) && negb (mem w seen)) eqn:Hw.
    + apply andb_true_iff in Hw as [H1 H2]. apply negb_true_iff in H1, H2.
      destruct (IH (w :: seen)) as [Hnd Hin]. split.
      * constructor; [|done]. intros Hw. apply Hin in Hw as (_ & Hn & _). apply Hn. left. done.
      * intros x [<-|Hx].
        -- split; [left; done|]. split.
           ++ intros Hs. apply mem_In in Hs. congruence.
           ++ intros ->. rewrite String.eqb_refl in H1. discriminate.
        -- apply Hin in Hx as (Hx1 & Hx2 & Hx3). split; [right; done|]. split; [|done].
           intros Hs. apply Hx2. right. done.
    + destruct (IH seen) as [Hnd Hin]. split; [done|].
      intros x Hx. apply Hin in Hx as (? & ? & ?). split; [right; done|]. done.
Qed.

Lemma clean_go_spec lines acc out :
  clean_go lines acc = Some out ->
  Forall (fun w => is_preamble w = false /\ no_issues_full w = false) acc ->
  Forall (fun w => is_preamble w = false /\ no_issues_full w = false) out.
Proof.
  revert acc. induction lines as [|raw rest IH]; intros acc H Hacc; cbn [clean_go] in H.
  - injection H as <-. done.
  - destruct (String.eqb (strip raw) EmptyString); [eauto|].
    destruct (is_preamble _) eqn:Hp; [eauto|].
    destruct (no_issues_full _) eqn:Hn; [discriminate|].
    apply IH in H; [done|]. apply Forall_app; split; [done|]. constructor; [tauto|constructor].
Qed.

Lemma clean_go_none lines acc raw :
  In raw lines ->
  no_issues_full (strip (lstrip_bullets (strip raw))) = true ->
  is_preamble (strip (lstrip_bullets (strip raw))) = false ->
  clean_go lines acc = None.
Proof.
  intros Hin Hn Hp. revert acc. induction lines as [|r rest IH]; intros acc; [destruct Hin|].
  cbn [clean_go]. destruct Hin as [->|Hin].
  - destruct (String.eqb (strip raw) EmptyString) eqn:He.
    + apply String.eqb_eq in He. rewrite He in Hn. vm_compute in Hn. discriminate.
    + rewrite Hp, Hn. done.
  - destruct (String.eqb (strip r) EmptyString); [apply IH; done|].
    destruct (is_preamble (strip (lstrip_bullets (strip r)))); [apply IH; done|].
    destruct (no_issues_full (strip (lstrip_bullets (strip r)))); [done|apply IH; done].
Qed.

Lemma NoDup_firstn_list {A} n (l : list A) : List.NoDup l -> List.NoDup (firstn n l).
Proof. intros H. rewrite <- (firstn_skipn n l) in H. apply List.NoDup_app_remove_r in H. done. Qed.

Lemma sum_filter_nonempty {A} (f : A * list string -> nat) (l : list (A * list string)) :
  (forall kv, kv.2 = [] -> f kv = 0%nat) ->
  sum_list_with f (List.filter (fun kv => negb (bool_decide (kv.2 = []))) l) = sum_list_with f l.
Proof.
  intros Hf. induction l as [|kv l IH]; [done|]. simpl.
  destruct (bool_decide (kv.2 = [])) eqn:Hb; simpl.
  - apply bool_decide_eq_true in Hb. rewrite (Hf kv Hb), IH. done.
  - rewrite IH. done.
Qed.

Lemma filter_nonempty_idem {A} (l : list (A * list string)) :
  List.filter (fun kv => negb (bool_decide (kv.2 = [])))
    (List.filter (fun kv => negb (bool_decide (kv.2 = []))) l)
  = List.filter (fun kv => negb (bool_decide (kv.2 = []))) l.
Proof.
  induction l as [|kv l IH]; [done|]. simpl.
  destruct (bool_decide (kv.2 = [])) eqn:Hb; simpl; [done|]. rewrite Hb. simpl. rewrite IH. done.
Qed.

Lemma file_lines_filter (l : list (string * list string)) :
  concat (map file_lines (List.filter (fun kv => negb (bool_decide (kv.2 = []))) l))
  = concat (map file_lines l).
Proof.
  induction l as [|[k v] l IH]; [done|]. simpl.
  destruct (bool_decide (v = [])) eqn:Hb; simpl.
  - apply bool_decide_eq_true in Hb. subst. rewrite IH. done.
  - rewrite IH. done.
Qed.

(** *** The scan loop *)

Lemma dict_set_keys k v d n :
  In n (map fst (dict_set k v d)) <-> n = k \/ In n (map fst d).
Proof.
  induction d as [|[k' v'] d IH]; simpl; [naive_solver|].
  destruct (String.eqb k k') eqn:Hk; simpl.
  - apply String.eqb_eq in Hk. subst. naive_solver.
  - rewrite IH. naive_solver.
Qed.

Lemma dict_set_nodup k v d :
  List.NoDup (map fst d) -> List.NoDup (map fst (dict_set k v d)).
Proof.
  induction d as [|[k' v'] d IH]; simpl; intros Hnd.
  - constructor; [intros []|constructor].
  - inversion Hnd as [|? ? Hn Hnd0]; subst.
    destruct (String.eqb k k') eqn:Hk; simpl.
    + apply String.eqb_eq in Hk. subst. constructor; done.
    + constructor; [|apply IH; exact Hnd0].
      rewrite dict_set_keys. intros [->|H]; [rewrite String.eqb_refl in Hk; discriminate|done].
Qed.

Lemma scan_files_gen llm files results total :
  let '(res, tot, effs) := scan_files llm files results total in
  effs = map (fun f => EAnalyze (scan_name f)) files /\
  (List.NoDup (map fst results) -> List.NoDup (map fst res)) /\
  (forall n, In n (map fst res) <-> In n (map fst results) \/ In n (map scan_name files)) /\
  tot = (total + sum_list_with (fun f => length (ai_scan llm (guess_domain (scan_name f)
           (fd_content f)) (scan_name f) (fd_content f))) files)%nat.
Proof.
  revert results total. induction files as [|f files IH]; intros results total; simpl.
  - repeat split; try tauto. lia.
  - specialize (IH (dict_set (scan_name f) (ai_scan llm (guess_domain (scan_name f) (fd_content f))
                  (scan_name f) (fd_content f)) results)
                (total + length (ai_scan llm (guess_domain (scan_name f) (fd_content f))
                  (scan_name f) (fd_content f)))%nat).
    destruct (scan_files llm files _ _) as [[res tot] effs].
    destruct IH as (He & Hnd & Hk & Ht). split; [rewrite He; done|]. split.
    { intros H. apply Hnd. apply dict_set_nodup. done. }
    split; [|rewrite Ht; lia].
    intros n. rewrite Hk, dict_set_keys. naive_solver.
Qed.

(** *** E-mail throttling and the batch cache *)

Lemma prune_window BATCH_TTL now rb :
  map_Forall (fun _ t => now - t <= BATCH_TTL) (prune BATCH_TTL now rb).
Proof.
  apply map_Forall_lookup. intros k t Hk. unfold prune in Hk.
  apply map_lookup_filter_Some in Hk as [_ Hk]. simpl in Hk. apply Z.leb_le. done.
Qed.


Lemma scan_no_email_filter llm files results total :
  List.filter (fun e => match e with EEmail _ _ _ => true | _ => false end)
    (scan_files llm files results total).2 = [].
Proof.
  pose proof (scan_effects llm files results total) as H.
  induction H as [|e effs [n ->] _ IH]; [done|]. simpl. done.
Qed.

(** *** Properties *)

(** [ai_scan] returns, whatever the LLM answers, at most 50 findings,
    pairwise distinct and non-empty; none of them is a preamble line or
    a "No issues" line. *)
Theorem ai_scan_items llm domain filename content :
  (length (ai_scan llm domain filename content) <= 50)%nat /\
  List.NoDup (ai_scan llm domain filename content) /\
  Forall (fun w => w <> EmptyString /\ is_preamble w = false /\ no_issues_full w = false)
    (ai_scan llm domain filename content).
Proof.
  unfold ai_scan. destruct (llm _) as [txt|]; [|simpl; repeat constructor].
  unfold clean_reply.
  destruct (clean_go (splitlines txt) []) as [out|] eqn:E; [|simpl; repeat constructor].
  pose proof (clean_go_spec _ _ _ E (List.Forall_nil _)) as Hout.
  destruct (dedupe_go_spec out []) as [Hnd Hin].
  split; [apply firstn_le_length|]. split; [apply NoDup_firstn_list; done|].
  apply List.Forall_forall. intros w Hw.
  assert (Hw' : In w (dedupe_go out [])).
  { rewrite <- (firstn_skipn 50 (dedupe_go out [])). apply in_or_app. left. done. }
  apply Hin in Hw' as (Hw1 & _ & Hw3).
  rewrite List.Forall_forall in Hout. destruct (Hout w Hw1). done.
Qed.

(** A reply line that reads "No issues" (after the bullet clean-up)
    makes [ai_scan] return no finding at all, even when other lines of
    the same reply, before or after it, list issues. *)
Theorem no_issues_line_empties_scan llm domain filename content txt raw :
  llm (scan_messages domain filename content) = Some txt ->
  In raw (splitlines txt) ->
  no_issues_full (strip (lstrip_bullets (strip raw))) = true ->
  is_preamble (strip (lstrip_bullets (strip raw))) = false ->
  ai_scan llm domain filename content = [].
Proof.
  intros Hl Hin Hn Hp. unfold ai_scan. rewrite Hl. unfold clean_reply.
  rewrite (clean_go_none _ [] raw Hin Hn Hp). done.
Qed.

(** Entries of [results] with no warnings change nothing in the e-mail:
    dropping them gives the same subject and the same body. *)
Theorem format_email_ignores_clean_files email reason created results ts :
  _format_email email reason created
    (List.filter (fun kv => negb (bool_decide (kv.2 = []))) results) ts
  = _format_email email reason created results ts.
Proof.
  unfold _format_email.
  rewrite (sum_filter_nonempty (fun kv => length kv.2)) by (intros kv ->; done).
  rewrite filter_nonempty_idem, file_lines_filter. done.
Qed.

(** A request that gets past the duplicate test and the multi-file
    guard scans every submitted file once, in order, even when two
    files share a name; [results] holds one entry per distinct name;
    [issues_found] adds up the findings of every scan, so a name given
    twice counts twice. *)
Theorem scan_files_results llm files :
  let '(results, total, effs) := scan_files llm files [] 0 in
  effs = map (fun f => EAnalyze (scan_name f)) files /\
  List.NoDup (map fst results) /\
  (forall n, In n (map fst results) <-> In n (map scan_name files)) /\
  total = sum_list_with (fun f => length (ai_scan llm (guess_domain (scan_name f)
            (fd_content f)) (scan_name f) (fd_content f))) files.
Proof.
  pose proof (scan_files_gen llm files [] 0) as H.
  destruct (scan_files llm files [] 0) as [[res tot] effs].
  destruct H as (He & Hnd & Hk & Ht). split; [done|]. split; [apply Hnd; constructor|].
  split; [intros n; rewrite Hk; simpl; tauto|]. rewrite Ht. done.
Qed.

(** [_should_send] changes nothing when it withholds an e-mail. When it
    lets one through, it records the send time and the digest of the
    body for that address only. *)
Theorem should_send_records digest EMAIL_MIN_INTERVAL now email body st :
  ((_should_send digest EMAIL_MIN_INTERVAL now email body st).2 = false ->
   (_should_send digest EMAIL_MIN_INTERVAL now email body st).1 = st) /\
  ((_should_send digest EMAIL_MIN_INTERVAL now email body st).2 = true ->
   email_state (_should_send digest EMAIL_MIN_INTERVAL now email body st).1 !! email
     = Some (mk_email_entry now (digest body)) /\
   recent_batch (_should_send digest EMAIL_MIN_INTERVAL now email body st).1
     = recent_batch st /\
   forall e, e <> email ->
     email_state (_should_send digest EMAIL_MIN_INTERVAL now email body st).1 !! e
       = email_state st !! e).
Proof.
  unfold _should_send.
  destruct (email_state st !! email) as [en|] eqn:He; simpl.
  - destruct (String.eqb (es_digest en) (digest body) && (now - es_ts en <? EMAIL_MIN_INTERVAL));
      simpl; split; intros H; try discriminate; try done;
      (split; [by simplify_map_eq|split; [done|intros e Hne; by simplify_map_eq]]).
  - split; intros H; [discriminate|].
    split; [by simplify_map_eq|split; [done|intros e Hne; by simplify_map_eq]].
Qed.

(** Once [_should_send] has let an e-mail through, the same body to the
    same address is withheld, without touching the state, until
    [EMAIL_MIN_INTERVAL] seconds have passed. *)
Theorem should_send_withholds_repeat digest EMAIL_MIN_INTERVAL now now' email body st :
  (_should_send digest EMAIL_MIN_INTERVAL now email body st).2 = true ->
  now' - now < EMAIL_MIN_INTERVAL ->
  _should_send digest EMAIL_MIN_INTERVAL now' email body
    (_should_send digest EMAIL_MIN_INTERVAL now email body st).1
  = ((_should_send digest EMAIL_MIN_INTERVAL now email body st).1, false).
Proof.
  intros Hgo Hw.
  destruct (should_send_records digest EMAIL_MIN_INTERVAL now email body st) as [_ Hrec].
  destruct (Hrec Hgo) as [Hl _].
  unfold _should_send at 1. rewrite Hl. simpl. rewrite String.eqb_refl.
  replace (now' - now <? EMAIL_MIN_INTERVAL) with true by (symmetry; apply Z.ltb_lt; done).
  done.
Qed.

(** After any request the batch cache holds the request's fingerprint
    and no entry older than [BATCH_TTL] seconds. *)
Theorem recent_batch_window digest BATCH_TTL EMAIL_MIN_INTERVAL ALLOW_MULTI_MOD_EMAILS
    llm smtp now nm iso p st :
  0 <= BATCH_TTL ->
  is_Some (recent_batch (analyze_batch digest BATCH_TTL EMAIL_MIN_INTERVAL
             ALLOW_MULTI_MOD_EMAILS llm smtp now nm iso p st).1.1
             !! _batch_fingerprint digest p) /\
  map_Forall (fun _ t => now - t <= BATCH_TTL)
    (recent_batch (analyze_batch digest BATCH_TTL EMAIL_MIN_INTERVAL
       ALLOW_MULTI_MOD_EMAILS llm smtp now nm iso p st).1.1).
Proof.
  intros Httl. unfold analyze_batch, dedup_phase.
  pose proof (prune_window BATCH_TTL now (recent_batch st)) as Hw.
  destruct (prune BATCH_TTL now (recent_batch st) !! _batch_fingerprint digest p) as [t|] eqn:Hl.
  - simpl. split; [eexists; done|done].
  - rewrite (proj1 (scan_phase_rb digest EMAIL_MIN_INTERVAL ALLOW_MULTI_MOD_EMAILS llm smtp
               nm iso _ p _)). simpl. split; [eexists; by simplify_map_eq|].
    apply map_Forall_insert_2; [lia|done].
Qed.

(** An e-mail goes out only to the stripped address of the request,
    only when that address is not empty and at least one issue was
    found, and at most once per request; [email_sent] is true only when
    it did go out. *)
Theorem analyze_email_guard digest BATCH_TTL EMAIL_MIN_INTERVAL ALLOW_MULTI_MOD_EMAILS
    llm smtp now nm iso p st :
  let '(st', effs, r) := analyze_batch digest BATCH_TTL EMAIL_MIN_INTERVAL
                           ALLOW_MULTI_MOD_EMAILS llm smtp now nm iso p st in
  (forall to sj bd, In (EEmail to sj bd) effs ->
     to = strip (pl_email p) /\ to <> EmptyString /\ (0 < r_issues_found r)%nat) /\
  (length (List.filter (fun e => match e with EEmail _ _ _ => true | _ => false end) effs)
     <= 1)%nat /\
  (r_email_sent r = true -> exists sj bd, In (EEmail (strip (pl_email p)) sj bd) effs).
Proof.
  unfold analyze_batch.
  destruct (dedup_phase digest BATCH_TTL now p st) as [st1 [r|]] eqn:Ed.
  { unfold dedup_phase in Ed.
    destruct (prune BATCH_TTL now (recent_batch st) !! _) in Ed; simplify_eq/=.
    split; [intros ? ? ? []|]. split; [simpl; lia|]. discriminate. }
  unfold scan_phase.
  destruct (negb ALLOW_MULTI_MOD_EMAILS && String.eqb (handler_reason p) "modified"
            && bool_decide (pl_created_paths p = []) && (1 <? length (pl_files p))%nat).
  { split; [intros ? ? ? []|]. split; [simpl; lia|]. discriminate. }
  pose proof (scan_no_email_filter llm (pl_files p) [] 0) as Hf.
  pose proof (no_email_in_scan llm (pl_files p) [] 0) as Hn.
  destruct (scan_files llm (pl_files p) [] 0) as [[results total] effs] eqn:Es. simpl in Hf, Hn.
  unfold notify_phase.
  destruct (negb (String.eqb (strip (pl_email p)) EmptyString) && (0 <? total)%nat) eqn:Hg.
  - apply andb_true_iff in Hg as [Hg1 Hg2]. apply negb_true_iff in Hg1.
    apply Nat.ltb_lt in Hg2.
    destruct (_format_email _ _ _ _ _) as [subject body].
    destruct (_should_send digest EMAIL_MIN_INTERVAL nm _ body st1) as [st' []]; simpl.
    + split.
      * intros to sj bd Hin. apply in_app_or in Hin as [Hin|[Heq|[]]]; [exfalso; eapply Hn; exact Hin|].
        injection Heq as <- <- <-. split; [done|]. split; [|done].
        intros He. rewrite He in Hg1. discriminate.
      * split; [rewrite List.filter_app, Hf; simpl; lia|].
        intros _. exists subject, body. apply in_or_app. right. left. done.
    + split; [intros to sj bd Hin; rewrite app_nil_r in Hin; exfalso; eapply Hn; exact Hin|].
      split; [rewrite List.filter_app, Hf; simpl; lia|]. discriminate.
  - simpl. split; [intros to sj bd Hin; rewrite app_nil_r in Hin; exfalso; eapply Hn; exact Hin|].
    split; [rewrite List.filter_app, Hf; simpl; lia|]. discriminate.
Qed.

End BackendExtra.

(* ================================================================== *)
(** * Further properties of the watcher *)
Module WatcherExtra.
Import Watcher Notions WatcherFacts BackendFacts BackendExtra.

(** *** Scope *)

Lemma contains_NL_cons c x : contains NL (String c x) = Ascii.eqb c "010"%char || contains NL x.
Proof.
  cbn [contains]. unfold startswith, NL, chr. cbn [String.prefix].
  destruct (ascii_dec _ c) as [<-|Hne].
  - rewrite Ascii.eqb_refl. destruct x; done.
  - replace (Ascii.eqb c _) with false; [done|].
    symmetry. apply Ascii.eqb_neq. intros ->. apply Hne. reflexivity.
Qed.

Lemma no_newline_prefix r m : no_newline r = true -> no_newline (String.substring 0 m r) = true.
Proof.
  unfold no_newline. revert m. induction r as [|c r IH]; intros m H.
  - destruct m; done.
  - destruct m as [|m]; [done|]. cbn [String.substring].
    rewrite contains_NL_cons in H |- *. apply negb_true_iff in H.
    apply orb_false_iff in H as [H1 H2]. rewrite H1. simpl.
    apply IH. rewrite H2. done.
Qed.

Lemma dotstar_endswith lit r :
  endswith lit r = true -> no_newline r = true -> dotstar_lit_dollar lit r = true.
Proof.
  intros He Hn. unfold dotstar_lit_dollar. rewrite He, no_newline_prefix by done. done.
Qed.

(** *** [_collect_specific] *)

Lemma collect_go_spec ie inames ed fs rels out :
  (length out < MAX_FILES_PER_BATCH)%nat ->
  (length (collect_go ie inames ed fs rels out) <= MAX_FILES_PER_BATCH)%nat /\
  forall f, In f (collect_go ie inames ed fs rels out) ->
    In f out \/
    (In (fd_path f) rels /\ fs (fd_path f) = Some (fd_content f) /\
     fd_name f = basename (fd_path f) /\
     _in_scope ie inames (fd_name f) = true /\
     (N.of_nat (String.length (fd_content f)) <= MAX_BYTES_PER_FILE)%N).
Proof.
  revert out. induction rels as [|rel rels IH]; intros out Hlen; cbn [collect_go].
  { split; [lia|tauto]. }
  assert (Hskip : (length (collect_go ie inames ed fs rels out) <= MAX_FILES_PER_BATCH)%nat /\
    forall f, In f (collect_go ie inames ed fs rels out) ->
    In f out \/
    (In (fd_path f) (rel :: rels) /\ fs (fd_path f) = Some (fd_content f) /\
     fd_name f = basename (fd_path f) /\ _in_scope ie inames (fd_name f) = true /\
     (N.of_nat (String.length (fd_content f)) <= MAX_BYTES_PER_FILE)%N)).
  { destruct (IH out Hlen) as [H1 H2]. split; [done|].
    intros f Hf. destruct (H2 f Hf) as [H|(? & ? & ? & ? & ?)]; [tauto|right; simpl; tauto]. }
  destruct (existsb _ (dir_parts rel)); [exact Hskip|].
  destruct (fs rel) as [bytes|] eqn:Hfs; [|exact Hskip].
  destruct (negb (_in_scope ie inames (basename rel))) eqn:Hsc; [exact Hskip|].
  destruct (MAX_BYTES_PER_FILE <? N.of_nat (String.length bytes))%N eqn:Hsz; [exact Hskip|].
  apply negb_false_iff in Hsc. apply N.ltb_ge in Hsz.
  assert (Hnew : forall g, In g (out ++ [mk_file (basename rel) rel bytes]) ->
    In g out \/
    (In (fd_path g) (rel :: rels) /\ fs (fd_path g) = Some (fd_content g) /\
     fd_name g = basename (fd_path g) /\ _in_scope ie inames (fd_name g) = true /\
     (N.of_nat (String.length (fd_content g)) <= MAX_BYTES_PER_FILE)%N)).
  { intros g Hg. apply in_app_or in Hg as [Hg|[<-|[]]]; [tauto|right]. simpl.
    split; [left; done|]. done. }
  cbv zeta. rewrite length_app. cbn [length].
  destruct (MAX_FILES_PER_BATCH <=? length out + 1)%nat eqn:Hmax.
  - split; [rewrite length_app; simpl; unfold MAX_FILES_PER_BATCH in *; lia|exact Hnew].
  - apply Nat.leb_gt in Hmax.
    destruct (IH (out ++ [mk_file (basename rel) rel bytes])) as [H1 H2];
      [rewrite length_app; simpl; lia|].
    split; [done|]. intros f Hf. destruct (H2 f Hf) as [H|(? & ? & ? & ? & ?)].
    + apply Hnew. done.
    + right. simpl. tauto.
Qed.

Lemma SS_remove_mid {A} (R : A -> A -> Prop) l1 x l2 :
  StronglySorted R (l1 ++ x :: l2) -> StronglySorted R (l1 ++ l2).
Proof.
  induction l1 as [|y l1 IH]; simpl; intros H.
  - apply StronglySorted_inv in H. tauto.
  - apply StronglySorted_inv in H as [H1 H2]. constructor; [apply IH; done|].
    rewrite List.Forall_forall in H2 |- *. intros z Hz. apply H2.
    apply in_app_or in Hz as [Hz|Hz]; apply in_or_app; [left; done|right; right; done].
Qed.

Lemma SS_prefix {A} (R : A -> A -> Prop) l1 l2 :
  StronglySorted R (l1 ++ l2) -> StronglySorted R l1.
Proof.
  induction l1 as [|y l1 IH]; simpl; intros H; [constructor|].
  apply StronglySorted_inv in H as [H1 H2]. constructor; [apply IH; done|].
  rewrite List.Forall_forall in H2 |- *. intros z Hz. apply H2. apply in_or_app. left. done.
Qed.

Lemma collect_go_sorted ie inames ed fs rels out :
  StronglySorted slt (map fd_path out ++ rels) ->
  StronglySorted slt (map fd_path (collect_go ie inames ed fs rels out)).
Proof.
  revert out. induction rels as [|rel rels IH]; intros out H; cbn [collect_go].
  { rewrite app_nil_r in H. done. }
  assert (Hskip : StronglySorted slt (map fd_path (collect_go ie inames ed fs rels out))).
  { apply IH. eapply SS_remove_mid. exact H. }
  destruct (existsb _ (dir_parts rel)); [exact Hskip|].
  destruct (fs rel) as [bytes|]; [|exact Hskip].
  destruct (negb _); [exact Hskip|].
  destruct (MAX_BYTES_PER_FILE <? _)%N; [exact Hskip|].
  assert (Heq : map fd_path (out ++ [mk_file (basename rel) rel bytes]) ++ rels
                = map fd_path out ++ rel :: rels).
  { rewrite map_app, <- app_assoc. done. }
  cbv zeta. destruct (MAX_FILES_PER_BATCH <=? _)%nat.
  - eapply SS_prefix. rewrite Heq. exact H.
  - apply IH. rewrite Heq. exact H.
Qed.

(** *** The pending sets *)

Lemma set_add_In y x s : In y (set_add x s) <-> y = x \/ In y s.
Proof.
  unfold set_add. destruct (mem x s) eqn:Hm.
  - apply mem_In in Hm. naive_solver.
  - rewrite in_app_iff. simpl. naive_solver.
Qed.

Lemma set_add_nodup x s : List.NoDup s -> List.NoDup (set_add x s).
Proof.
  intros H. unfold set_add. destruct (mem x s) eqn:Hm; [done|].
  eapply Permutation_NoDup; [apply Permutation_cons_append|].
  constructor; [|done]. intros Hx. apply mem_In in Hx. congruence.
Qed.

(** *** [_evict], [_already], [_remember] *)

Lemma evict_keeps TTL now l x :
  In x l -> now - x.1 <= TTL -> In x (evict TTL now l).
Proof.
  induction l as [|[ts b] l IH]; intros Hin Hx; [done|]. cbn [evict].
  destruct (TTL <? now - ts) eqn:Ht; [|done].
  apply Z.ltb_lt in Ht. destruct Hin as [<-|Hin]; [simpl in Hx; lia|]. apply IH; done.
Qed.

Lemma evict_suffix TTL now l : exists old, l = old ++ evict TTL now l.
Proof.
  induction l as [|[ts b] l IH]; [exists []; done|]. cbn [evict].
  destruct (TTL <? now - ts).
  - destruct IH as [old Hold]. exists ((ts, b) :: old). simpl. rewrite <- Hold. done.
  - exists []. done.
Qed.

Lemma already_in TTL bid now l t :
  In (t, bid) l -> now - t <= TTL -> (already TTL bid now l).1 = true.
Proof.
  intros Hin Ht. unfold already. simpl. apply existsb_exists. exists (t, bid).
  split; [apply evict_keeps; done|apply String.eqb_refl].
Qed.

(** *** Bookkeeping of a dispatched batch *)

Lemma mark_seen_true files seen k :
  (seen !! k = Some true \/ exists f, In f files /\ fd_path f = k) ->
  mark_seen files seen !! k = Some true.
Proof.
  unfold mark_seen. revert seen. induction files as [|f files IH]; intros seen H; simpl.
  - destruct H as [H|(? & [] & _)]. done.
  - apply IH. destruct (String.eq_dec (fd_path f) k) as [<-|Hne].
    + left. by simplify_map_eq.
    + destruct H as [H|(g & [<-|Hg] & Hk)]; [left; by simplify_map_eq|done|].
      right. eauto.
Qed.

Lemma record_notify_other digest now files ln k :
  (forall f, In f files -> fd_path f <> k) ->
  record_notify digest now files ln !! k = ln !! k.
Proof.
  unfold record_notify. revert ln. induction files as [|f files IH]; intros ln H; simpl; [done|].
  rewrite IH by (intros g Hg; apply H; right; done).
  rewrite lookup_insert_ne; [done|]. apply H. left. done.
Qed.

Lemma record_notify_in digest now files ln k :
  (exists f, In f files /\ fd_path f = k) ->
  exists f, In f files /\ fd_path f = k /\
    record_notify digest now files ln !! k = Some (mk_notify now (digest (fd_content f))).
Proof.
  revert ln. induction files as [|f files IH]; intros ln Hex; [destruct Hex as (? & [] & _)|].
  destruct (in_dec String.string_dec k (map fd_path files)) as [Hr|Hr].
  - apply in_map_iff in Hr as (g0 & Hg0 & Hg0in).
    destruct (IH (<[fd_path f := mk_notify now (digest (fd_content f))]> ln)
                (ex_intro _ g0 (conj Hg0in Hg0))) as (g & Hg & Hk & Hl).
    exists g. split; [right; done|]. split; [done|]. exact Hl.
  - destruct Hex as (g & [->|Hg] & Hk); [|exfalso; apply Hr; apply in_map_iff; eauto].
    exists g. split; [left; done|]. split; [done|].
    unfold record_notify. simpl. fold (record_notify digest now files
      (<[fd_path g := mk_notify now (digest (fd_content g))]> ln)).
    rewrite record_notify_other; [subst; by simplify_map_eq|].
    intros h Hh Hhk. apply Hr. apply in_map_iff. eauto.
Qed.

Lemma maybe_send_posted digest D TTL F ie inames ed now env st st' reason files created bid ok :
  _maybe_send digest D TTL F ie inames ed now env st = (st', TPosted reason files created bid ok) ->
  pending_paths st' = [] /\ pending_created st' = [] /\
  file_seen st' = mark_seen files (file_seen st) /\
  (ok = true ->
   last_notify st' = record_notify digest now files (last_notify st) /\
   recent_batch_ids st' = remember TTL bid now (evict TTL now (recent_batch_ids st))) /\
  (ok = false ->
   last_notify st' = last_notify st /\ recent_batch_ids st' = evict TTL now (recent_batch_ids st)).
Proof.
  unfold _maybe_send. intros H.
  repeat case_match; simplify_eq/=;
    match goal with
    | Ha : already _ _ _ _ = (_, _) |- _ => unfold already in Ha; simplify_eq/=
    end; repeat split; try done; intros; discriminate.
Qed.

(** *** Properties *)

(** Editor swap, temporary and backup files (a lower-cased name ending
    in [.swp], [.swx], [.tmp], [.temp] or [~], without a line break, or
    starting with [~$]) are never in scope, whatever the include lists
    say. *)
Theorem editor_temp_files_out_of_scope include_ext include_names name :
  no_newline (lower name) = true ->
  startswith "~$" (lower name) = true \/
  Exists (fun lit => endswith lit (lower name) = true) [".swp"; ".swx"; ".tmp"; ".temp"; "~"] ->
  _in_scope include_ext include_names name = false.
Proof.
  intros Hn Hx. unfold _in_scope.
  enough (_ignore_name (lower name) = true) as -> by done.
  unfold _ignore_name.
  destruct Hx as [Hs|Hx]; [rewrite Hs; rewrite orb_true_r; done|].
  repeat rewrite List.Exists_cons in Hx. rewrite List.Exists_nil in Hx.
  destruct Hx as [H|[H|[H|[H|[H|[]]]]]]; rewrite (dotstar_endswith _ _ H Hn);
    rewrite ?orb_true_r; done.
Qed.

(** [_collect_specific] returns at most [MAX_FILES_PER_BATCH] files.
    Each is one of the requested paths, read from the file system, named
    after the path's basename, in scope, and at most
    [MAX_BYTES_PER_FILE] bytes long. *)
Theorem collect_specific_files include_ext include_names exclude_dirs fs_read paths :
  (length (_collect_specific include_ext include_names exclude_dirs fs_read paths)
     <= MAX_FILES_PER_BATCH)%nat /\
  forall f, In f (_collect_specific include_ext include_names exclude_dirs fs_read paths) ->
    In (fd_path f) paths /\ fs_read (fd_path f) = Some (fd_content f) /\
    fd_name f = basename (fd_path f) /\
    _in_scope include_ext include_names (fd_name f) = true /\
    (N.of_nat (String.length (fd_content f)) <= MAX_BYTES_PER_FILE)%N.
Proof.
  unfold _collect_specific.
  destruct (collect_go_spec include_ext include_names exclude_dirs fs_read
              (sort_strings paths) [] ltac:(simpl; unfold MAX_FILES_PER_BATCH; lia)) as [H1 H2].
  split; [done|]. intros f Hf. destruct (H2 f Hf) as [[]|(Hp & Hrest)].
  split; [|done]. eapply Permutation_in; [apply sort_strings_perm|exact Hp].
Qed.

(** For a set of requested paths (no path twice), [_collect_specific]
    returns its files in strictly increasing path order. *)
Theorem collect_specific_sorted include_ext include_names exclude_dirs fs_read paths :
  List.NoDup paths ->
  StronglySorted slt
    (map fd_path (_collect_specific include_ext include_names exclude_dirs fs_read paths)).
Proof.
  intros Hnd. unfold _collect_specific. apply collect_go_sorted. simpl.
  pose proof (sort_by_sorted (fun s : string => s) paths) as Hs.
  rewrite map_id in Hs. apply Hs. done.
Qed.

(** A batch id passed to [_remember] at time [now] is reported by
    [_already] at any time [now'] up to [INPUT_DEDUPE_TTL] seconds
    later (for a non-negative TTL). *)
Theorem remembered_batch_is_already INPUT_DEDUPE_TTL bid now now' l :
  0 <= INPUT_DEDUPE_TTL -> now' - now <= INPUT_DEDUPE_TTL ->
  (already INPUT_DEDUPE_TTL bid now' (remember INPUT_DEDUPE_TTL bid now l)).1 = true.
Proof.
  intros H0 Hw. apply (already_in _ _ _ _ now); [|done].
  unfold remember. apply evict_keeps; [|simpl; lia].
  apply in_or_app. right. left. done.
Qed.

(** [_evict] only drops entries from the front of the list. On a list in
    time order it keeps exactly the entries at most [INPUT_DEDUPE_TTL]
    seconds old. *)
Theorem evict_window INPUT_DEDUPE_TTL now l :
  Sorted (fun a b : Z * string => a.1 <= b.1) l ->
  (exists old, l = old ++ evict INPUT_DEDUPE_TTL now l) /\
  (forall p, In p (evict INPUT_DEDUPE_TTL now l) <-> In p l /\ now - p.1 <= INPUT_DEDUPE_TTL).
Proof.
  intros Hs. split; [apply evict_suffix|].
  apply Sorted_StronglySorted in Hs; [|intros x y z; lia].
  induction Hs as [|[ts b] l Hs IH Hall]; intros p; cbn [evict]; [simpl; tauto|].
  destruct (INPUT_DEDUPE_TTL <? now - ts) eqn:Ht.
  - apply Z.ltb_lt in Ht. rewrite IH. simpl. split; [tauto|].
    intros [[<-|Hin] Hp]; [simpl in Hp; lia|tauto].
  - apply Z.ltb_ge in Ht. simpl. split; [|tauto]. intros Hin. split; [done|].
    destruct Hin as [<-|Hin]; [simpl; lia|].
    rewrite List.Forall_forall in Hall. specialize (Hall p Hin). simpl in Hall. lia.
Qed.

(** When [_post_batch] raises, the tick still clears both pending sets
    and marks the files as seen, but records neither a cooldown nor the
    batch id. The paths are not retried until a new event, and none of
    these files can be reported as created by a later batch. *)
Theorem failed_post_forgets_batch digest DEBOUNCE_SECONDS INPUT_DEDUPE_TTL FILE_COOLDOWN_SEC
    include_ext include_names exclude_dirs now env st st' reason files created bid :
  _maybe_send digest DEBOUNCE_SECONDS INPUT_DEDUPE_TTL FILE_COOLDOWN_SEC
    include_ext include_names exclude_dirs now env st
  = (st', TPosted reason files created bid false) ->
  pending_paths st' = [] /\ pending_created st' = [] /\
  last_notify st' = last_notify st /\
  recent_batch_ids st' = evict INPUT_DEDUPE_TTL now (recent_batch_ids st) /\
  forall f, In f files ->
    file_seen st' !! fd_path f = Some true /\
    forall now' ln pc fs',
      ~ In (fd_path f) (select_files digest FILE_COOLDOWN_SEC now' ln (file_seen st') pc fs').2.
Proof.
  intros H. destruct (maybe_send_posted _ _ _ _ _ _ _ _ _ _ _ _ _ _ _ _ H)
    as (Hp & Hc & Hseen & _ & Hfail).
  destruct (Hfail eq_refl) as [Hln Hrb].
  split; [done|]. split; [done|]. split; [done|]. split; [done|].
  intros f Hf.
  assert (Hs : file_seen st' !! fd_path f = Some true).
  { rewrite Hseen. apply mark_seen_true. right. eauto. }
  split; [done|]. intros now' ln pc fs' Hin.
  apply in_select_created in Hin as (_ & Hd & _). rewrite Hs in Hd. discriminate.
Qed.

(** After a successful post, each sent file is marked seen and gets a
    cooldown entry stamped [now] with the digest of the content sent for
    its path. The batch id is then reported by [_already] for
    [INPUT_DEDUPE_TTL] seconds (for a non-negative TTL). *)
Theorem posted_batch_recorded digest DEBOUNCE_SECONDS INPUT_DEDUPE_TTL FILE_COOLDOWN_SEC
    include_ext include_names exclude_dirs now env st st' reason files created bid :
  0 <= INPUT_DEDUPE_TTL ->
  _maybe_send digest DEBOUNCE_SECONDS INPUT_DEDUPE_TTL FILE_COOLDOWN_SEC
    include_ext include_names exclude_dirs now env st
  = (st', TPosted reason files created bid true) ->
  pending_paths st' = [] /\ pending_created st' = [] /\
  (forall now', now' - now <= INPUT_DEDUPE_TTL ->
     (already INPUT_DEDUPE_TTL bid now' (recent_batch_ids st')).1 = true) /\
  forall f, In f files ->
    file_seen st' !! fd_path f = Some true /\
    exists g, In g files /\ fd_path g = fd_path f /\
      last_notify st' !! fd_path f = Some (mk_notify now (digest (fd_content g))).
Proof.
  intros H0 H. destruct (maybe_send_posted _ _ _ _ _ _ _ _ _ _ _ _ _ _ _ _ H)
    as (Hp & Hc & Hseen & Hok & _).
  destruct (Hok eq_refl) as [Hln Hrb].
  split; [done|]. split; [done|]. split.
  { intros now' Hw. rewrite Hrb. apply (already_in _ _ _ _ now); [|done].
    unfold remember. apply evict_keeps; [|simpl; lia]. apply in_or_app. right. left. done. }
  intros f Hf. split.
  - rewrite Hseen. apply mark_seen_true. right. eauto.
  - rewrite Hln. apply record_notify_in. eauto.
Qed.


End WatcherExtra.

(* ================================================================== *)
(** * Properties of the client set-up helpers *)
Module ClientExtra.
Import Watcher ClientSetup Notions BackendFacts BackendExtra WatcherExtra.

(** *** Strings *)

Lemma rev_app_spec s1 s2 : String.rev_app s1 s2 = String.rev s1 +:+ s2.
Proof.
  revert s2. induction s1 as [|a s1 IH]; intros s2; [done|].
  unfold String.rev. cbn [String.rev_app]. rewrite !IH.
  rewrite <- str_app_assoc, str_app_cons, str_app_nil_l. done.
Qed.

Lemma rev_cons a s : String.rev (String a s) = String.rev s +:+ String a EmptyString.
Proof. unfold String.rev at 1. cbn [String.rev_app]. apply rev_app_spec. Qed.

Lemma rev_app_distr x y : String.rev (x +:+ y) = String.rev y +:+ String.rev x.
Proof.
  induction x as [|a x IH].
  - rewrite str_app_nil_l. unfold String.rev at 3. simpl. rewrite str_app_nil_r. done.
  - rewrite str_app_cons, !rev_cons, IH, str_app_assoc. done.
Qed.

Lemma rev_involutive s : String.rev (String.rev s) = s.
Proof.
  induction s as [|a s IH]; [done|].
  rewrite rev_cons, rev_app_distr, IH. unfold String.rev at 1. simpl.
  rewrite str_app_cons, str_app_nil_l. done.
Qed.

Lemma all_chars_app p x y : all_chars p (x +:+ y) = all_chars p x && all_chars p y.
Proof.
  induction x as [|a x IH]; [rewrite str_app_nil_l; done|].
  rewrite str_app_cons. simpl. rewrite IH, andb_assoc. done.
Qed.

Lemma all_chars_rev p s : all_chars p (String.rev s) = all_chars p s.
Proof.
  induction s as [|a s IH]; [done|].
  rewrite rev_cons, all_chars_app, IH. simpl. rewrite andb_true_r, andb_comm. done.
Qed.

Lemma all_chars_impl (p q : ascii -> bool) s :
  (forall c, p c = true -> q c = true) -> all_chars p s = true -> all_chars q s = true.
Proof.
  intros Hpq. induction s as [|a s IH]; simpl; [done|].
  intros H. apply andb_true_iff in H as [H1 H2]. rewrite (Hpq a H1), IH; done.
Qed.

Lemma ident_char_plain c :
  ident_char c = true -> is_ws c = false /\ (ascii_code c <? 128)%nat = true.
Proof.
  destruct c as [[] [] [] [] [] [] [] []]; vm_compute; intros H;
    first [discriminate H | split; reflexivity].
Qed.

Lemma ident_start_char c : ident_start c = true -> ident_char c = true.
Proof. unfold ident_char. intros ->. done. Qed.

(** Every byte of a non-ASCII whitespace character is at least 128. *)
Lemma ws_seq2_bytes c1 c2 :
  ws_seq2 c1 c2 = true -> (128 <= ascii_code c1)%nat /\ (128 <= ascii_code c2)%nat.
Proof.
  unfold ws_seq2. generalize (ascii_code c1) (ascii_code c2). intros n1 n2 H.
  repeat rewrite ?orb_true_iff, ?andb_true_iff, ?Nat.eqb_eq in H. lia.
Qed.

Lemma ws_seq3_bytes c1 c2 c3 :
  ws_seq3 c1 c2 c3 = true ->
  (128 <= ascii_code c1)%nat /\ (128 <= ascii_code c2)%nat /\ (128 <= ascii_code c3)%nat.
Proof.
  unfold ws_seq3. generalize (ascii_code c1) (ascii_code c2) (ascii_code c3).
  intros n1 n2 n3 H.
  repeat rewrite ?orb_true_iff, ?andb_true_iff, ?Nat.eqb_eq, ?Nat.leb_le in H. lia.
Qed.

Lemma lstrip_ascii_head c s :
  is_ws c = false -> (ascii_code c <? 128)%nat = true -> lstrip_ws (String c s) = String c s.
Proof.
  intros Hw Hc. apply Nat.ltb_lt in Hc. cbn [lstrip_ws]. rewrite Hw.
  destruct s as [|c2 [|c3 s3]]; [done| |].
  - destruct (ws_seq2 c c2) eqn:E2; [apply ws_seq2_bytes in E2; lia|done].
  - destruct (ws_seq2 c c2) eqn:E2; [apply ws_seq2_bytes in E2; lia|].
    destruct (ws_seq3 c c2 c3) eqn:E3; [apply ws_seq3_bytes in E3; lia|done].
Qed.

Lemma rlstrip_ascii_head c s :
  is_ws c = false -> (ascii_code c <? 128)%nat = true -> rlstrip_ws (String c s) = String c s.
Proof.
  intros Hw Hc. apply Nat.ltb_lt in Hc. cbn [rlstrip_ws]. rewrite Hw.
  destruct s as [|c2 [|c3 s3]]; [done| |].
  - destruct (ws_seq2 c2 c) eqn:E2; [apply ws_seq2_bytes in E2; lia|done].
  - destruct (ws_seq2 c2 c) eqn:E2; [apply ws_seq2_bytes in E2; lia|].
    destruct (ws_seq3 c3 c2 c) eqn:E3; [apply ws_seq3_bytes in E3; lia|done].
Qed.

Lemma str_len_ind (P : string -> Prop) :
  (forall s, (forall t, (String.length t < String.length s)%nat -> P t) -> P s) ->
  forall s, P s.
Proof.
  intros H s.
  induction s as [s IH] using
    (well_founded_induction (Wf_nat.well_founded_ltof string String.length)).
  apply H. exact IH.
Qed.

(** [rstrip] drops a run of bytes from the end, each of them ASCII
    whitespace or a byte of a multi-byte whitespace character. *)
Lemma rlstrip_suffix s :
  exists d, s = d +:+ rlstrip_ws s /\
    all_chars (fun b => is_ws b || (128 <=? ascii_code b)%nat) d = true.
Proof.
  induction s as [s IH] using str_len_ind.
  destruct s as [|c s1]; [exists EmptyString; done|].
  cbn [rlstrip_ws]. destruct (is_ws c) eqn:Hc.
  { destruct (IH s1 ltac:(simpl; lia)) as (d & Hd & Hall).
    exists (String c d). rewrite str_app_cons, <- Hd. cbn [all_chars]. rewrite Hc, Hall. done. }
  destruct s1 as [|c2 s2]; [exists EmptyString; done|].
  destruct (ws_seq2 c2 c) eqn:H2.
  { apply ws_seq2_bytes in H2 as [B2 B1].
    destruct (IH s2 ltac:(simpl; lia)) as (d & Hd & Hall).
    exists (String c (String c2 d)). rewrite !str_app_cons, <- Hd. cbn [all_chars].
    rewrite Hall, (proj2 (Nat.leb_le _ _) B1), (proj2 (Nat.leb_le _ _) B2), !orb_true_r.
    done. }
  destruct s2 as [|c3 s3]; [exists EmptyString; done|].
  destruct (ws_seq3 c3 c2 c) eqn:H3; [|exists EmptyString; done].
  apply ws_seq3_bytes in H3 as (B3 & B2 & B1).
  destruct (IH s3 ltac:(simpl; lia)) as (d & Hd & Hall).
  exists (String c (String c2 (String c3 d))). rewrite !str_app_cons, <- Hd. cbn [all_chars].
  rewrite Hall, (proj2 (Nat.leb_le _ _) B1), (proj2 (Nat.leb_le _ _) B2),
    (proj2 (Nat.leb_le _ _) B3), !orb_true_r.
  done.
Qed.

Lemma rlstrip_shape s :
  rlstrip_ws s = EmptyString \/ exists c r, rlstrip_ws s = String c r /\ is_ws c = false.
Proof.
  induction s as [s IH] using str_len_ind.
  destruct s as [|c s1]; [left; done|].
  cbn [rlstrip_ws]. destruct (is_ws c) eqn:Hc; [apply IH; simpl; lia|].
  destruct s1 as [|c2 s2]; [right; eauto|].
  destruct (ws_seq2 c2 c); [apply IH; simpl; lia|].
  destruct s2 as [|c3 s3]; [right; eauto|].
  destruct (ws_seq3 c3 c2 c); [apply IH; simpl; lia|right; eauto].
Qed.

Lemma strip_nonws s : all_chars ident_char s = true -> strip s = s.
Proof.
  intros H. unfold strip, rev_string.
  destruct s as [|c r]; [done|].
  pose proof H as H0. cbn [all_chars] in H0. apply andb_true_iff in H0 as [Hc _].
  destruct (ident_char_plain c Hc) as [Hw Ha]. rewrite lstrip_ascii_head by done.
  assert (Hr : all_chars ident_char (String.rev (String c r)) = true)
    by (rewrite all_chars_rev; done).
  destruct (String.rev (String c r)) as [|c' r'] eqn:Er.
  - simpl. rewrite <- Er, rev_involutive. done.
  - cbn [all_chars] in Hr. apply andb_true_iff in Hr as [Hc' _].
    destruct (ident_char_plain c' Hc') as [Hw' Ha'].
    rewrite rlstrip_ascii_head by done. rewrite <- Er. apply rev_involutive.
Qed.

Lemma strip_end s :
  strip s = EmptyString \/
  exists p c, strip s = p +:+ String c EmptyString /\ is_ws c = false.
Proof.
  unfold strip, rev_string.
  destruct (rlstrip_shape (String.rev (lstrip_ws s))) as [->|(c & r & -> & Hc)]; [left; done|].
  right. exists (String.rev r), c. rewrite rev_cons. done.
Qed.

(** A prefix made of bytes other than [c] ends before the first [c]. *)
Lemma app_skip_sep (Q : ascii -> bool) d t x c y :
  Q c = false -> all_chars Q d = true -> d +:+ t = x +:+ String c y ->
  exists u, t = u +:+ String c y.
Proof.
  intros Hc. revert x. induction d as [|b d IH]; intros x Hd H.
  - rewrite str_app_nil_l in H. eauto.
  - cbn [all_chars] in Hd. apply andb_true_iff in Hd as [Hb Hd].
    destruct x as [|a x].
    + rewrite str_app_nil_l, str_app_cons in H. injection H as -> _. congruence.
    + rewrite !str_app_cons in H. injection H as _ H. eapply IH; eauto.
Qed.

Lemma contains_app_r p x y : contains p y = true -> contains p (x +:+ y) = true.
Proof.
  intros H. induction x as [|a x IH]; [rewrite str_app_nil_l; done|].
  rewrite str_app_cons. simpl. rewrite IH, orb_true_r. done.
Qed.

(** *** [_parse_env_keys] *)

Lemma ident_tail_snoc p c :
  ident_tail (p +:+ String c EmptyString) = true -> Ascii.eqb c "010"%char = false ->
  all_chars ident_char (p +:+ String c EmptyString) = true.
Proof.
  intros H Hc. induction p as [|d p IH].
  - rewrite str_app_nil_l in *. simpl in *. rewrite Hc in H.
    destruct (ident_char c); done.
  - rewrite str_app_cons in *. simpl in *.
    assert (Hne : String.eqb (p +:+ String c EmptyString) EmptyString = false).
    { destruct p; rewrite ?str_app_nil_l, ?str_app_cons; done. }
    rewrite Hne, andb_false_r, orb_false_r in H.
    apply andb_true_iff in H as [H1 H2]. rewrite H1, IH; done.
Qed.

Lemma strip_ident_match x : ident_match (strip x) = true -> is_identifier (strip x) = true.
Proof.
  destruct (strip_end x) as [He|(p & c & He & Hc)]; rewrite He; [done|].
  assert (Hn : Ascii.eqb c "010"%char = false).
  { destruct (Ascii.eqb c "010"%char) eqn:E; [|done].
    apply Ascii.eqb_eq in E. subst. discriminate. }
  destruct p as [|d p].
  - rewrite str_app_nil_l. simpl. rewrite !andb_true_r. done.
  - rewrite str_app_cons. simpl. intros H. apply andb_true_iff in H as [H1 H2].
    rewrite H1, ident_tail_snoc; done.
Qed.

Lemma parse_env_go_sound lines keys :
  List.NoDup keys -> Forall (fun k => is_identifier k = true) keys ->
  List.NoDup (parse_env_go lines keys) /\
  Forall (fun k => is_identifier k = true) (parse_env_go lines keys).
Proof.
  revert keys. induction lines as [|line lines IH]; intros keys Hnd Hid; cbn [parse_env_go]; [done|].
  destruct (String.eqb (strip line) EmptyString || startswith "#" (strip line)); [apply IH; done|].
  destruct (contains "=" (strip line)); [|apply IH; done].
  destruct (ident_match (strip (before_eq (strip line)))) eqn:Hm; [|apply IH; done].
  apply IH; [apply set_add_nodup; done|].
  apply List.Forall_forall. intros y Hy. apply set_add_In in Hy as [->|Hy].
  - apply strip_ident_match. done.
  - rewrite List.Forall_forall in Hid. apply Hid. done.
Qed.

Lemma parse_env_go_mono lines keys k : In k keys -> In k (parse_env_go lines keys).
Proof.
  revert keys. induction lines as [|line lines IH]; intros keys Hk; cbn [parse_env_go]; [done|].
  repeat case_match; apply IH; try done. apply set_add_In. right. done.
Qed.

Lemma ident_tail_all s : all_chars ident_char s = true -> ident_tail s = true.
Proof.
  induction s as [|a s IH]; [done|]. simpl. intros H. apply andb_true_iff in H as [H1 H2].
  rewrite H1, IH; done.
Qed.

Lemma before_eq_ident k w :
  all_chars ident_char k = true -> before_eq (k +:+ String "="%char w) = k.
Proof.
  unfold before_eq. induction k as [|a k IH]; intros H.
  - rewrite str_app_nil_l. done.
  - simpl in H. apply andb_true_iff in H as [H1 H2]. rewrite str_app_cons. cbn [split_on].
    assert (Ha : Ascii.eqb a "="%char = false).
    { destruct (Ascii.eqb a "="%char) eqn:E; [|done]. apply Ascii.eqb_eq in E. subst. done. }
    rewrite Ha. specialize (IH H2).
    destruct (split_on "="%char (k +:+ String "="%char w)); simpl in *; rewrite ?IH; done.
Qed.

Lemma strip_key_line k v :
  is_identifier k = true ->
  exists w, strip (k +:+ "=" +:+ v) = k +:+ String "="%char w.
Proof.
  intros Hk. rewrite (str_app_cons "="%char EmptyString v), (str_app_nil_l v).
  destruct k as [|c0 r]; [done|]. simpl in Hk. apply andb_true_iff in Hk as [Hc0 Hr].
  destruct (ident_char_plain c0 (ident_start_char c0 Hc0)) as [Hws Ha].
  unfold strip, rev_string.
  rewrite str_app_cons, lstrip_ascii_head by done. rewrite <- str_app_cons.
  rewrite rev_app_distr, rev_cons.
  rewrite <- str_app_assoc, str_app_cons, str_app_nil_l.
  destruct (rlstrip_suffix (String.rev v +:+ String "="%char (String.rev (String c0 r))))
    as (d & Hd & Hall).
  destruct (app_skip_sep _ d _ (String.rev v) "="%char (String.rev (String c0 r))
              eq_refl Hall (eq_sym Hd)) as [u ->].
  exists (String.rev u).
  rewrite rev_app_distr, rev_cons, rev_involutive, <- str_app_assoc,
    (str_app_cons "="%char EmptyString), str_app_nil_l. done.
Qed.

Lemma parse_env_go_line lines keys k v :
  is_identifier k = true -> In (k +:+ "=" +:+ v) lines -> In k (parse_env_go lines keys).
Proof.
  intros Hk Hin. destruct (strip_key_line k v Hk) as [w Hw].
  revert keys. induction lines as [|line lines IH]; intros keys; [destruct Hin|].
  destruct Hin as [->|Hin]; cbn [parse_env_go].
  - rewrite Hw. destruct k as [|c0 r]; [discriminate|].
    simpl in Hk. apply andb_true_iff in Hk as [Hc0 Hr].
    assert (Hall : all_chars ident_char (String c0 r) = true)
      by (simpl; rewrite ident_start_char, Hr; done).
    assert (Ht1 : String.eqb (String c0 r +:+ String "="%char w) EmptyString = false)
      by (rewrite str_app_cons; done).
    assert (Ht2 : startswith "#" (String c0 r +:+ String "="%char w) = false).
    { rewrite str_app_cons. unfold startswith. cbn [String.prefix].
      destruct (ascii_dec "#"%char c0) as [<-|]; [discriminate|done]. }
    assert (Ht3 : contains "=" (String c0 r +:+ String "="%char w) = true).
    { apply contains_app_r. cbn [contains]. unfold startswith. cbn [String.prefix].
      destruct (ascii_dec "="%char "="%char); [destruct w; reflexivity|congruence]. }
    assert (Ht4 : strip (before_eq (String c0 r +:+ String "="%char w)) = String c0 r).
    { rewrite before_eq_ident by done. apply strip_nonws. done. }
    assert (Ht5 : ident_match (String c0 r) = true)
      by (simpl; rewrite Hc0, ident_tail_all; done).
    rewrite Ht1, Ht2. simpl orb. rewrite Ht3, Ht4, Ht5.
    apply parse_env_go_mono. apply set_add_In. left. done.
  - repeat case_match; apply IH; done.
Qed.

(** *** [_detect_api_base] *)

Lemma detect_go_spec ping candidates cs failed :
  detect_go ping candidates cs failed =
  match List.find (fun b => negb (String.eqb b EmptyString) && ping (b +:+ "/api/ping")) cs with
  | Some b => (b, true)
  | None =>
      (default "http://localhost:5000"
         (List.find (fun b => negb (String.eqb b EmptyString)) candidates),
       negb (failed || existsb (fun b => negb (String.eqb b EmptyString)) cs))
  end.
Proof.
  revert failed. induction cs as [|b cs IH]; intros failed; simpl; [rewrite orb_false_r; done|].
  destruct (String.eqb b EmptyString); simpl; [apply IH|].
  destruct (ping (b +:+ "/api/ping")); [done|]. rewrite IH. destruct (List.find _ cs); [done|].
  rewrite orb_true_r. done.
Qed.

(** [_parse_env_keys] returns a set of distinct keys, each matching the
    pattern [^[A-Za-z_][A-Za-z0-9_]*$] in full: no trailing newline, no
    comment marker, no whitespace. *)
Theorem env_keys_identifiers text :
  List.NoDup (_parse_env_keys text) /\
  Forall (fun k => is_identifier k = true) (_parse_env_keys text).
Proof.
  unfold _parse_env_keys. apply parse_env_go_sound; [constructor|apply List.Forall_nil].
Qed.

(** Every line of the form [KEY=value] with an identifier [KEY] (no
    surrounding blanks) contributes [KEY] to the result of [_parse_env_keys],
    whatever the value, even one containing more [=] signs. *)
Theorem env_keys_complete text k v :
  is_identifier k = true -> In (k +:+ "=" +:+ v) (Backend.splitlines text) ->
  In k (_parse_env_keys text).
Proof. intros Hk Hin. unfold _parse_env_keys. eapply parse_env_go_line; eassumption. Qed.

(** [_detect_api_base] over [API_CANDIDATES]: the flag is [True] exactly
    when some candidate answers its [/api/ping]; then the base returned is a
    candidate that answered. When none answers, the flag is [False] and the
    base is the first candidate ([BP_API_URL] stripped, or
    [http://localhost:5000]). *)
Theorem init_api_base ping bp_api_url :
  let '(base, ok) := _detect_api_base ping (API_CANDIDATES bp_api_url) in
  (ok = true <->
     Exists (fun b => ping (b +:+ "/api/ping") = true) (API_CANDIDATES bp_api_url)) /\
  (ok = true ->
     In base (API_CANDIDATES bp_api_url) /\ ping (base +:+ "/api/ping") = true) /\
  (ok = false -> base = hd EmptyString (API_CANDIDATES bp_api_url)).
Proof.
  unfold _detect_api_base. rewrite detect_go_spec. unfold API_CANDIDATES.
  remember (if String.eqb (strip bp_api_url) EmptyString then "http://localhost:5000"
            else strip bp_api_url) as h eqn:Eh.
  assert (Hh : String.eqb h EmptyString = false).
  { subst h. destruct (String.eqb (strip bp_api_url) EmptyString) eqn:E; [reflexivity|exact E]. }
  clear Eh. simpl. rewrite Hh. simpl.
  destruct (ping (h +:+ "/api/ping")) eqn:E1;
    [|destruct (ping ("http://127.0.0.1:5000" +:+ "/api/ping")) eqn:E2;
      [|destruct (ping ("http://localhost:8080" +:+ "/api/ping")) eqn:E3]];
    simpl; rewrite !Exists_cons, Exists_nil; intuition congruence.
Qed.

End ClientExtra.

(* ================================================================== *)
(** * The further properties on concrete inputs *)
Module ExtraCases.
Import Watcher Backend ClientSetup Notions Scenarios BackendExtra WatcherExtra ClientExtra.

(** A reply listing an issue and then "No issues" yields no finding. *)
Lemma no_issues_line_empties_scan_witness :
  ai_scan (fun _ => Some ("- Runs as root" +:+ NL +:+ "No issues")) "docker" "a.yml"
    "image: nginx:latest" = [].
Proof.
  apply (no_issues_line_empties_scan (fun _ => Some ("- Runs as root" +:+ NL +:+ "No issues"))
           "docker" "a.yml" "image: nginx:latest" ("- Runs as root" +:+ NL +:+ "No issues")
           "No issues").
  - reflexivity.
  - vm_compute. right. left. reflexivity.
  - vm_compute. reflexivity.
  - vm_compute. reflexivity.
Defined.

(** The same body to the same address 60 seconds later is withheld. *)
Lemma should_send_withholds_repeat_witness :
  _should_send sample_digest 120 60 "dev@example.com" "body"
    (_should_send sample_digest 120 0 "dev@example.com" "body" empty_sstate).1
  = ((_should_send sample_digest 120 0 "dev@example.com" "body" empty_sstate).1, false).
Proof.
  apply (should_send_withholds_repeat sample_digest 120 0 60 "dev@example.com" "body"
           empty_sstate).
  - vm_compute. reflexivity.
  - lia.
Defined.

Lemma recent_batch_window_witness :
  is_Some (recent_batch (sample_analyze llm_flags 0 0 stamp (created_batch "a.yml")
             empty_sstate).1.1 !! _batch_fingerprint sample_digest (created_batch "a.yml")).
Proof.
  apply (recent_batch_window sample_digest 180 120 false llm_flags smtp_ok 0 0 stamp
           (created_batch "a.yml") empty_sstate).
  lia.
Defined.

Lemma editor_temp_files_out_of_scope_witness :
  _in_scope INCLUDE_EXT_DEFAULT INCLUDE_NAMES_DEFAULT "compose.yml.swp" = false.
Proof.
  apply (editor_temp_files_out_of_scope INCLUDE_EXT_DEFAULT INCLUDE_NAMES_DEFAULT
           "compose.yml.swp").
  - vm_compute. reflexivity.
  - right. apply List.Exists_cons_hd. vm_compute. reflexivity.
Defined.

Lemma collect_specific_sorted_witness :
  StronglySorted slt
    (map fd_path (_collect_specific INCLUDE_EXT_DEFAULT INCLUDE_NAMES_DEFAULT
                    EXCLUDE_DIRS_DEFAULT sample_fs ["b.yml"; "a.yml"])).
Proof.
  apply (collect_specific_sorted INCLUDE_EXT_DEFAULT INCLUDE_NAMES_DEFAULT
           EXCLUDE_DIRS_DEFAULT sample_fs ["b.yml"; "a.yml"]).
  constructor; [intros [H|[]]; discriminate H|constructor; [intros []|constructor]].
Defined.

Lemma remembered_batch_is_already_witness :
  (already 180 "bid" 100 (remember 180 "bid" 0 [])).1 = true.
Proof. apply (remembered_batch_is_already 180 "bid" 0 100 []); lia. Defined.

Lemma evict_window_witness :
  (exists old, [(0, "a"); (50, "b"); (200, "c")] =
     old ++ evict 180 250 [(0, "a"); (50, "b"); (200, "c")]) /\
  (In (200, "c") (evict 180 250 [(0, "a"); (50, "b"); (200, "c")]) <->
     In (200, "c") [(0, "a"); (50, "b"); (200, "c")] /\ 250 - 200 <= 180).
Proof.
  destruct (evict_window 180 250 [(0, "a"); (50, "b"); (200, "c")]
              ltac:(repeat constructor; simpl; lia)) as [Hs Hm].
  split; [exact Hs|apply (Hm (200, "c"))].
Defined.

(** A tick whose post raises. *)
Lemma failed_post_forgets_batch_witness :
  last_notify (sample_send 20 (mk_tick_env sample_fs false) created_and_modified).1 =
    last_notify created_and_modified /\
  file_seen (sample_send 20 (mk_tick_env sample_fs false) created_and_modified).1
    !! "a.yml" = Some true.
Proof.
  destruct (failed_post_forgets_batch sample_digest 10 180 300 INCLUDE_EXT_DEFAULT
              INCLUDE_NAMES_DEFAULT EXCLUDE_DIRS_DEFAULT 20 (mk_tick_env sample_fs false)
              created_and_modified
              (sample_send 20 (mk_tick_env sample_fs false) created_and_modified).1
              "created" [file_a; file_b] ["a.yml"]
              (_batch_id sample_digest [file_a; file_b] "created")
              ltac:(vm_compute; reflexivity)) as (_ & _ & Hln & _ & Hf).
  split; [exact Hln|]. apply (Hf file_a). left. reflexivity.
Defined.

(** A tick whose post succeeds. *)
Lemma posted_batch_recorded_witness :
  (already 180 (_batch_id sample_digest [file_a; file_b] "created") 100
     (recent_batch_ids (sample_send 20 sample_env created_and_modified).1)).1 = true.
Proof.
  destruct (posted_batch_recorded sample_digest 10 180 300 INCLUDE_EXT_DEFAULT
              INCLUDE_NAMES_DEFAULT EXCLUDE_DIRS_DEFAULT 20 sample_env created_and_modified
              (sample_send 20 sample_env created_and_modified).1
              "created" [file_a; file_b] ["a.yml"]
              (_batch_id sample_digest [file_a; file_b] "created")
              ltac:(lia) ltac:(vm_compute; reflexivity)) as (_ & _ & Ha & _).
  apply Ha. lia.
Defined.


(** A [.env] text with a comment line and a value holding [=]. *)
Lemma env_keys_complete_witness :
  In "API_KEY" (_parse_env_keys ("# keys" +:+ NL +:+ "API_KEY=x=y")).
Proof.
  apply (env_keys_complete ("# keys" +:+ NL +:+ "API_KEY=x=y") "API_KEY" "x=y").
  - reflexivity.
  - vm_compute. right. left. reflexivity.
Defined.

End ExtraCases.
